(** * Todo list: server-side query construction and record lifecycle
      (TodoController.java) and client-side refinement (todo.service.ts,
      add-todo.component.ts).

    The Java controller is embedded as handlers in a state-and-exception
    monad over the response context and the todo collection; the TypeScript
    service is embedded over a small heap of JavaScript objects and arrays so
    that aliasing and in-place property assignment are visible.  JavaScript
    strings are sequences of UTF-16 code units; numbers and
    [String.prototype.toLowerCase] are taken as given. *)

From Stdlib Require Import ZArith NArith String Ascii List Bool Lia.
From stdpp Require Import base option list gmap strings.

Open Scope Z_scope.
Open Scope string_scope.

(* ===================================================================== *)
(** * Part I: definitions                                                *)
(* ===================================================================== *)

(** ** Text on the server: case folding and substring search

    [toLowerCase] folds the letters A-Z, the letters a CASE_INSENSITIVE
    pattern compiled without UNICODE_CASE treats as equal up to case. *)
Module Str.

Definition toLowerAscii (c : ascii) : ascii :=
  let n := nat_of_ascii c in
  if (Nat.leb 65 n && Nat.leb n 90)%bool then ascii_of_nat (n + 32) else c.

Fixpoint toLowerCase (s : string) : string :=
  match s with
  | EmptyString => EmptyString
  | String c s' => String (toLowerAscii c) (toLowerCase s')
  end.

(** [startsWith s p]: [p] is a prefix of [s]. *)
Fixpoint startsWith (s p : string) {struct p} : bool :=
  match p, s with
  | EmptyString, _ => true
  | String _ _, EmptyString => false
  | String b p', String a s' => (Ascii.eqb a b && startsWith s' p')%bool
  end.

(** [indexOf s needle]: position of the first occurrence of [needle] in
    [s], or [-1]. *)
Fixpoint indexOf_from (s needle : string) (i : Z) : Z :=
  if startsWith s needle then i
  else match s with
       | EmptyString => -1
       | String _ s' => indexOf_from s' needle (i + 1)
       end.

Definition indexOf (s needle : string) : Z := indexOf_from s needle 0.

(** Unanchored substring containment, as a proposition. *)
Definition occursIn (needle s : string) : Prop :=
  exists pre post, s = pre +:+ needle +:+ post.

(** Containment up to the case of letters. *)
Definition occursInIgnoreCase (needle s : string) : Prop :=
  occursIn (toLowerCase needle) (toLowerCase s).

End Str.

(** ** State and exceptions

    A computation reads and writes a state [S] and either returns a value
    or stops with an exception [E]; the state reached when the exception is
    raised is kept. *)
Module StateExn.

Definition M (S E A : Type) : Type := S -> S * (E + A).

Definition ret {S E A} (a : A) : M S E A := fun s => (s, inr a).

Definition throw {S E A} (e : E) : M S E A := fun s => (s, inl e).

Definition bind {S E A B} (m : M S E A) (k : A -> M S E B) : M S E B :=
  fun s => match m s with
           | (s', inl e) => (s', inl e)
           | (s', inr a) => k a s'
           end.

Definition get {S E} : M S E S := fun s => (s, inr s).

Definition put {S E} (s : S) : M S E unit := fun _ => (s, inr tt).

(** [try m catch h]: run [m]; an exception [e] with [h e = Some m'] is
    handled by [m'], any other one propagates. *)
Definition tryCatch {S E A} (m : M S E A) (h : E -> option (M S E A)) : M S E A :=
  fun s => match m s with
           | (s', inl e) => match h e with
                            | Some m' => m' s'
                            | None => (s', inl e)
                            end
           | r => r
           end.

End StateExn.

Declare Scope monad_scope.
Delimit Scope monad_scope with monad.
Notation "x <- c1 ;; c2" := (StateExn.bind c1 (fun x => c2))
  (at level 100, c1 at next level, right associativity) : monad_scope.
Notation "c1 ;;; c2" := (StateExn.bind c1 (fun _ => c2))
  (at level 100, right associativity) : monad_scope.

(* --------------------------------------------------------------------- *)
(** ** The server: TodoController.java                                   *)
(* --------------------------------------------------------------------- *)
Module Server.
Import StateExn.
Local Open Scope monad_scope.

Definition BODY_KEY : string := "body".
Definition CATEGORY_KEY : string := "category".
Definition OWNER_KEY : string := "owner".
Definition STATUS_KEY : string := "status".

(** [CAT_REGEX] is [^(groceries|homework|software design|video games)$];
    [String.matches] asks for a match of the whole input, so the pattern
    accepts exactly its four alternatives. *)
Definition CAT_REGEX : list string :=
  ["groceries"; "homework"; "software design"; "video games"].

Definition String_matches (s : string) (alternatives : list string) : bool :=
  existsb (String.eqb s) alternatives.

(** *** Exceptions, statuses, records *)

Inductive Throwable :=
| IllegalArgumentException
| NullPointerException
| BadRequestResponse (message : string)
| NotFoundResponse (message : string)
| ValidationException (message : string).

(** The HTTP status an [HttpResponseException] carries. *)
Definition responseCode (e : Throwable) : option Z :=
  match e with
  | BadRequestResponse _ => Some 400
  | NotFoundResponse _ => Some 404
  | _ => None
  end.

Inductive HttpStatus := OK | CREATED | NOT_FOUND.

Definition statusCode (s : HttpStatus) : Z :=
  match s with OK => 200 | CREATED => 201 | NOT_FOUND => 404 end.

(** Modelled from the spec: the class Todo (Todo.java) with the fields the
    controller and its tests read ([_id], [owner], [status], [body],
    [category]).  The strings are Java references and may be null
    ([None]); [status] is a boolean. *)
Record Todo := {
  _id : option string;
  owner : option string;
  status : bool;
  body : option string;
  category : option string
}.

(** *** org.bson.types.ObjectId: twelve bytes, written as 24 hex digits *)

Definition ObjectId : Type := N.

Definition hexDigitValue (c : ascii) : option N :=
  let n := N_of_ascii c in
  if ((48 <=? n) && (n <=? 57))%N%bool then Some (n - 48)%N
  else if ((97 <=? n) && (n <=? 102))%N%bool then Some (n - 87)%N
  else if ((65 <=? n) && (n <=? 70))%N%bool then Some (n - 55)%N
  else None.

Fixpoint parseHexString (s : string) (acc : N) : option N :=
  match s with
  | EmptyString => Some acc
  | String c s' =>
      match hexDigitValue c with
      | Some d => parseHexString s' (16 * acc + d)%N
      | None => None
      end
  end.

Definition ObjectId_isValid (hexString : string) : bool :=
  (Nat.eqb (String.length hexString) 24
   && forallb (fun c => bool_decide (is_Some (hexDigitValue c)))
              (list_ascii_of_string hexString))%bool.

(** [new ObjectId(hexString)] throws IllegalArgumentException on a string
    that is not 24 hex digits. *)
Definition new_ObjectId (hexString : string) : Throwable + ObjectId :=
  if ObjectId_isValid hexString then
    match parseHexString hexString 0%N with
    | Some o => inr o
    | None => inl IllegalArgumentException
    end
  else inl IllegalArgumentException.

Definition hexDigit (d : N) : ascii :=
  if (d <? 10)%N then ascii_of_N (48 + d) else ascii_of_N (87 + d).

Fixpoint toHex (digits : nat) (v : N) (acc : string) : string :=
  match digits with
  | O => acc
  | S n => toHex n (v / 16)%N (String (hexDigit (v mod 16)%N) acc)
  end.

Definition toHexString (o : ObjectId) : string := toHex 24 o "".

(** *** The request and response of one call, and the collection *)

Inductive Json :=
| JsonTodo (t : Todo)
| JsonTodoList (ts : list Todo)
| JsonMap (entries : list (string * string)).

(** A Javalin [Context]: the path parameter [id], the query string as its
    key/value pairs in order, the request body as Jackson deserialises it
    to a [Todo] ([None] when it cannot), and the response written so far. *)
Record Context := {
  pathParam_id : string;
  queryString : list (string * string);
  requestBody : option Todo;
  response_json : option Json;
  response_status : option HttpStatus
}.

(** [ctx.queryParamMap()]: each key with the values given for it. *)
Definition queryParams (ctx : Context) (key : string) : list string :=
  map snd (List.filter (fun kv => String.eqb (fst kv) key) (queryString ctx)).

Definition queryParamMap_containsKey (ctx : Context) (key : string) : bool :=
  existsb (fun kv => String.eqb (fst kv) key) (queryString ctx).

(** [ctx.queryParam(key)]: the first value, or null. *)
Definition queryParam (ctx : Context) (key : string) : option string :=
  head (queryParams ctx key).

(** The todo collection: documents keyed by their ObjectId, in store
    order, and the next identifier the store hands out. *)
Record World := {
  ctx : Context;
  todoCollection : list (ObjectId * Todo);
  nextObjectId : ObjectId
}.

Definition Handler (A : Type) : Type := M World Throwable A.

Definition liftE {S A} (r : Throwable + A) : M S Throwable A :=
  fun s => (s, r).

(** *** Filters and sort orders (com.mongodb.client.model) *)

(** [Pattern.quote(s)] is the pattern matching the literal [s]. *)
Inductive Regex := Pattern_quote (s : string).

Definition CASE_INSENSITIVE : Z := 2.

Record Pattern := Pattern_compile { pattern : Regex; flags : Z }.

Inductive BsonValue :=
| BsonString (s : string)
| BsonBoolean (b : bool)
| BsonObjectId (o : ObjectId)
| BsonNull.

#[warnings="-register-all"] Inductive Bson :=
| Document_empty
| Filters_and (filters : list Bson)
| Filters_regex (fieldName : string) (p : Pattern)
| Filters_eq (fieldName : string) (v : BsonValue).

Inductive Sort :=
| Sorts_ascending (fieldName : string)
| Sorts_descending (fieldName : string).

Definition sortField (s : Sort) : string :=
  match s with Sorts_ascending f | Sorts_descending f => f end.

(** [Matcher.find] for a quoted pattern: an unanchored search for the
    literal, folding case when bit 1 of the flags is set. *)
Definition Pattern_find (p : Pattern) (input : string) : bool :=
  match pattern p with
  | Pattern_quote lit =>
      if Z.testbit (flags p) 1
      then negb (Z.eqb (Str.indexOf (Str.toLowerCase input) (Str.toLowerCase lit)) (-1))
      else negb (Z.eqb (Str.indexOf input lit) (-1))
  end.

(** The value a stored document has under a field name. *)
Definition fieldValue (d : ObjectId * Todo) (fieldName : string) : option BsonValue :=
  let ofString (o : option string) :=
    Some (match o with Some s => BsonString s | None => BsonNull end) in
  if String.eqb fieldName "_id" then Some (BsonObjectId (fst d))
  else if String.eqb fieldName OWNER_KEY then ofString (owner (snd d))
  else if String.eqb fieldName STATUS_KEY then Some (BsonBoolean (status (snd d)))
  else if String.eqb fieldName BODY_KEY then ofString (body (snd d))
  else if String.eqb fieldName CATEGORY_KEY then ofString (category (snd d))
  else None.

Definition BsonValue_eqb (a b : BsonValue) : bool :=
  match a, b with
  | BsonString s, BsonString t => String.eqb s t
  | BsonBoolean x, BsonBoolean y => Bool.eqb x y
  | BsonObjectId x, BsonObjectId y => N.eqb x y
  | BsonNull, BsonNull => true
  | _, _ => false
  end.

(** Modelled from the spec: the store is no part of the sources.  A regex
    filter is run on the text of a field: a text field is its own text, and
    the boolean status is matched "as a case-insensitive substring of its
    text representation", [true] or [false]; a field that is null or
    missing has no text. *)
Definition fieldText (d : ObjectId * Todo) (fieldName : string) : option string :=
  match fieldValue d fieldName with
  | Some (BsonString s) => Some s
  | Some (BsonBoolean true) => Some "true"
  | Some (BsonBoolean false) => Some "false"
  | _ => None
  end.

(** Modelled from the spec: how the store evaluates a filter on a
    document.  The empty document matches everything, [$and] is
    conjunction, [$regex] searches the text of the field, [$eq] compares
    values. *)
Fixpoint matches (f : Bson) (d : ObjectId * Todo) : bool :=
  match f with
  | Document_empty => true
  | Filters_and filters => forallb (fun g => matches g d) filters
  | Filters_regex k p =>
      match fieldText d k with
      | Some s => Pattern_find p s
      | None => false
      end
  | Filters_eq k v =>
      match fieldValue d k with
      | Some w => BsonValue_eqb w v
      | None => false
      end
  end.

(** Reading a document back as a [Todo]: [_id] is the hex string. *)
Definition toTodo (d : ObjectId * Todo) : Todo :=
  {| _id := Some (toHexString (fst d)); owner := owner (snd d);
     status := status (snd d); body := body (snd d);
     category := category (snd d) |}.

(** [todoCollection.find(filter)] *)
Definition find (f : Bson) (coll : list (ObjectId * Todo)) : list (ObjectId * Todo) :=
  List.filter (fun d => matches f d) coll.

(** [todoCollection.find(filter).first()] *)
Definition find_first (f : Bson) : Handler (option Todo) :=
  w <- get ;; ret (option_map toTodo (head (find f (todoCollection w)))).

(** [todoCollection.deleteOne(filter)]: drops the first match and
    reports how many documents went. *)
Fixpoint removeFirst (f : Bson) (coll : list (ObjectId * Todo))
  : list (ObjectId * Todo) * Z :=
  match coll with
  | [] => ([], 0)
  | d :: rest =>
      if matches f d then (rest, 1)
      else let '(rest', n) := removeFirst f rest in (d :: rest', n)
  end.

Definition deleteOne (f : Bson) : Handler Z :=
  w <- get ;;
  let '(coll', deletedCount) := removeFirst f (todoCollection w) in
  put {| ctx := ctx w; todoCollection := coll'; nextObjectId := nextObjectId w |} ;;;
  ret deletedCount.

(** [todoCollection.insertOne(todo)]: the store assigns a fresh
    identifier, appends the document and writes the identifier back into
    the object. *)
Definition insertOne (t : Todo) : Handler Todo :=
  w <- get ;;
  let oid := nextObjectId w in
  put {| ctx := ctx w;
         todoCollection := (todoCollection w ++ [(oid, t)])%list;
         nextObjectId := (oid + 1)%N |} ;;;
  ret (toTodo (oid, t)).

Definition ctx_json (j : Json) : Handler unit :=
  w <- get ;;
  let c := ctx w in
  put {| ctx := {| pathParam_id := pathParam_id c; queryString := queryString c;
                   requestBody := requestBody c; response_json := Some j;
                   response_status := response_status c |};
         todoCollection := todoCollection w; nextObjectId := nextObjectId w |}.

Definition ctx_status (s : HttpStatus) : Handler unit :=
  w <- get ;;
  let c := ctx w in
  put {| ctx := {| pathParam_id := pathParam_id c; queryString := queryString c;
                   requestBody := requestBody c; response_json := response_json c;
                   response_status := Some s |};
         todoCollection := todoCollection w; nextObjectId := nextObjectId w |}.

(** *** constructFilter

    The local list [filters] is the state of the computation;
    [Pattern.quote(null)] throws NullPointerException. *)

Definition compileQuoted (v : option string) (fl : Z)
  : M (list Bson) Throwable Pattern :=
  match v with
  | Some s => ret (Pattern_compile (Pattern_quote s) fl)
  | None => throw NullPointerException
  end.

Definition filters_add (f : Bson) : M (list Bson) Throwable unit :=
  fun filters => ((filters ++ [f])%list, inr tt).

Definition constructFilter (ctx : Context) : Throwable + Bson :=
  snd ((
    (if queryParamMap_containsKey ctx OWNER_KEY then
       pattern <- compileQuoted (queryParam ctx OWNER_KEY) CASE_INSENSITIVE ;;
       filters_add (Filters_regex OWNER_KEY pattern)
     else ret tt) ;;;
    (if queryParamMap_containsKey ctx STATUS_KEY then
       pattern <- compileQuoted (queryParam ctx STATUS_KEY) CASE_INSENSITIVE ;;
       filters_add (Filters_regex STATUS_KEY pattern)
     else ret tt) ;;;
    (if queryParamMap_containsKey ctx BODY_KEY then
       pattern <- compileQuoted (queryParam ctx BODY_KEY) CASE_INSENSITIVE ;;
       filters_add (Filters_regex BODY_KEY pattern)
     else ret tt) ;;;
    (if queryParamMap_containsKey ctx CATEGORY_KEY then
       pattern <- compileQuoted (queryParam ctx CATEGORY_KEY) CASE_INSENSITIVE ;;
       filters_add (Filters_regex CATEGORY_KEY pattern)
     else ret tt) ;;;
    filters <- get ;;
    ret (match filters with
         | [] => Document_empty
         | _ :: _ => Filters_and filters
         end)) []).

(** *** constructSortingOrder *)

Definition constructSortingOrder (ctx : Context) : Sort :=
  let sortBy := default "name" (queryParam ctx "sortby") in
  let sortOrder := default "asc" (queryParam ctx "sortorder") in
  if String.eqb sortOrder "desc" then Sorts_descending sortBy
  else Sorts_ascending sortBy.

(** *** getTodo *)

Definition getTodo : Handler unit :=
  w <- get ;;
  let id := pathParam_id (ctx w) in
  todo <- tryCatch
            (oid <- liftE (new_ObjectId id) ;;
             find_first (Filters_eq "_id" (BsonObjectId oid)))
            (fun e => match e with
                      | IllegalArgumentException =>
                          Some (throw (BadRequestResponse
                            "The requested todo id wasn't a legal Mongo Object ID."))
                      | _ => None
                      end) ;;
  match todo with
  | None => throw (NotFoundResponse "The requested todo was not found")
  | Some t => ctx_json (JsonTodo t) ;;; ctx_status OK
  end.

(** *** addNewTodo *)

(** A check of the validator: a predicate that may throw, and the message
    reported when it fails. *)
Definition Check : Type := (Todo -> Throwable + bool) * string.

(** Modelled from the spec: Javalin's BodyValidator.  [get] deserialises
    the body, then tries the checks in the order they were added and throws
    a ValidationException carrying the message of the first one that
    fails.  A check that dereferences null throws NullPointerException. *)
Fixpoint runChecks (rules : list Check) (t : Todo) : Throwable + Todo :=
  match rules with
  | [] => inr t
  | (check, message) :: rest =>
      match check t with
      | inl e => inl e
      | inr false => inl (ValidationException message)
      | inr true => runChecks rest t
      end
  end.

Definition BodyValidator_get (rules : list Check) (body : option Todo)
  : Throwable + Todo :=
  match body with
  | None => inl (ValidationException "DESERIALIZATION_FAILED")
  | Some t => runChecks rules t
  end.

Definition addNewTodo_checks : list Check :=
  [ (fun tdo => inr (match body tdo with
                     | Some b => Nat.ltb 0 (String.length b)
                     | None => false
                     end),
     "Todo must have a non-empty body");
    (fun tdo => inr (match owner tdo with
                     | Some o => Nat.ltb 0 (String.length o)
                     | None => false
                     end),
     "Todo must have a non-empty owner");
    (fun tdo => inr (status tdo),
     "Todo must have a non-empty status");
    (fun tdo => match category tdo with
                | Some c => inr (String_matches c CAT_REGEX)
                | None => inl NullPointerException
                end,
     "Todo must have a legal user role") ].

Definition addNewTodo : Handler unit :=
  w <- get ;;
  newTodo <- liftE (BodyValidator_get addNewTodo_checks (requestBody (ctx w))) ;;
  stored <- insertOne newTodo ;;
  ctx_json (JsonMap [("id", default "" (_id stored))]) ;;;
  ctx_status CREATED.

(** *** deleteTodo *)

Definition deleteTodo : Handler unit :=
  w <- get ;;
  let id := pathParam_id (ctx w) in
  oid <- liftE (new_ObjectId id) ;;
  deletedCount <- deleteOne (Filters_eq "_id" (BsonObjectId oid)) ;;
  if negb (Z.eqb deletedCount 1) then
    ctx_status NOT_FOUND ;;;
    throw (NotFoundResponse
             ("Was unable to delete ID " +:+ id
              +:+ "; perhaps illegal ID or an ID for an item not in the system?"))
  else ctx_status OK.

(** *** Vocabulary for the properties *)

(** The keys constructFilter looks for, in the order it does. *)
Definition filterKeys : list string :=
  [OWNER_KEY; STATUS_KEY; BODY_KEY; CATEGORY_KEY].

(** The filter a key contributes: one regex when the request gives the
    key a value, nothing otherwise. *)
Definition regexFor (ctx : Context) (key : string) : list Bson :=
  match queryParam ctx key with
  | Some v => [Filters_regex key (Pattern_compile (Pattern_quote v) CASE_INSENSITIVE)]
  | None => []
  end.

(** A document passes the filter of [key] with value [v]: the field has a
    text, and [v] occurs in it up to case. *)
Definition fieldContains (d : ObjectId * Todo) (key v : string) : Prop :=
  exists s, fieldText d key = Some s /\ Str.occursInIgnoreCase v s.

(** The insert is refused by validation and the world is as before. *)
Definition rejectedBeforeStore (w : World) : Prop :=
  exists message, addNewTodo w = (w, inl (ValidationException message)).

(** ['x'.repeat(n)] *)
Fixpoint String_repeat (c : ascii) (n : nat) : string :=
  match n with
  | O => EmptyString
  | S n' => String c (String_repeat c n')
  end.

(** A request, before any response is written. *)
Definition request (id : string) (query : list (string * string))
    (body : option Todo) : Context :=
  {| pathParam_id := id; queryString := query; requestBody := body;
     response_json := None; response_status := None |}.

(** The collection the controller tests start from, and a world around a
    request. *)
Definition frysId : ObjectId := 27409499828773727355042657665%N.

Definition testCollection : list (ObjectId * Todo) :=
  [ (1%N, {| _id := None; owner := Some "Jerry"; status := true;
             body := Some "Prominent skier"; category := Some "groceries" |});
    (2%N, {| _id := None; owner := Some "Swan"; status := false;
             body := Some "crazy"; category := Some "software design" |});
    (3%N, {| _id := None; owner := Some "Rod"; status := true;
             body := Some "Hunter"; category := Some "video games" |});
    (frysId, {| _id := None; owner := Some "Fry"; status := true;
                body := Some "Bullfrog ranger"; category := Some "homework" |}) ].

Definition world (c : Context) : World :=
  {| ctx := c; todoCollection := testCollection; nextObjectId := 4%N |}.

End Server.

(* --------------------------------------------------------------------- *)
(** ** The client: todo.service.ts and add-todo.component.ts             *)
(* --------------------------------------------------------------------- *)
Module Client.
Import StateExn.
Local Open Scope monad_scope.

(** *** JavaScript strings

    A string is the sequence of its UTF-16 code units: that is what
    [length] counts and what [indexOf] compares.  [js] is the string of an
    ASCII literal. *)

Definition jsstring : Type := list N.

Definition js (s : string) : jsstring := map N_of_ascii (list_ascii_of_string s).

(** [startsWith s p]: [p] is a prefix of [s]. *)
Fixpoint startsWith (s p : jsstring) {struct p} : bool :=
  match p, s with
  | [], _ => true
  | _ :: _, [] => false
  | b :: p', a :: s' => (N.eqb a b && startsWith s' p')%bool
  end.

(** [s.indexOf(needle)]: position of the first occurrence of [needle] in
    [s], or [-1]. *)
Fixpoint indexOf_from (s needle : jsstring) (i : Z) : Z :=
  if startsWith s needle then i
  else match s with
       | [] => -1
       | _ :: s' => indexOf_from s' needle (i + 1)
       end.

Definition indexOf (s needle : jsstring) : Z := indexOf_from s needle 0.

(** Unanchored substring containment, as a proposition. *)
Definition occursIn (needle s : jsstring) : Prop :=
  exists pre post, s = (pre ++ needle ++ post)%list.

(** *** What is taken from the language as given

    Numbers are IEEE doubles and [String.prototype.toLowerCase] follows the
    Unicode case tables; neither is spelled out here.  The code below uses
    of a number only whether it is truthy and what [toString] prints for
    it, and of [toLowerCase] only its result; nothing is assumed of the
    three, so what is proved holds whatever they are. *)
Class Builtins := {
  number : Type;
  Number_truthy : number -> bool;
  Number_toString : number -> jsstring;
  toLowerCase : jsstring -> jsstring
}.

Section WithBuiltins.
Context {B : Builtins}.

(** *** JavaScript values, objects and arrays

    A todo or a filter specification is an object: a finite map from
    property names to values, living in a heap cell so that two references
    to it see each other's assignments.  An array is a cell holding the
    references of its elements. *)

Inductive value :=
| VUndefined
| VString (s : jsstring)
| VBoolean (b : bool)
| VNumber (n : number).

Definition loc : Type := nat.

Inductive cell :=
| CObject (props : gmap string value)
| CArray (elems : list loc).

Inductive error := TypeError.

Definition JS (A : Type) : Type := M (list cell) error A.

(** ToBoolean *)
Definition truthy (v : value) : bool :=
  match v with
  | VUndefined => false
  | VString s => match s with [] => false | _ :: _ => true end
  | VBoolean b => b
  | VNumber n => Number_truthy n
  end.

(** ToString *)
Definition ToString (v : value) : jsstring :=
  match v with
  | VUndefined => js "undefined"
  | VString s => s
  | VBoolean true => js "true"
  | VBoolean false => js "false"
  | VNumber n => Number_toString n
  end.

(** [o.key]: undefined for a property the object lacks; arrays carry no
    named properties here. *)
Definition getProp (o : loc) (key : string) : JS value :=
  fun h => match h !! o with
           | Some (CObject props) => (h, inr (default VUndefined (props !! key)))
           | Some (CArray _) => (h, inr VUndefined)
           | None => (h, inl TypeError)
           end.

(** [o.key = v], in place. *)
Definition setProp (o : loc) (key : string) (v : value) : JS unit :=
  fun h => match h !! o with
           | Some (CObject props) =>
               (<[o := CObject (<[key := v]> props)]> h, inr tt)
           | _ => (h, inl TypeError)
           end.

(** [v.toLowerCase()]: only strings have the method. *)
Definition call_toLowerCase (v : value) : JS value :=
  match v with
  | VString s => ret (VString (toLowerCase s))
  | _ => throw TypeError
  end.

(** [v.indexOf(arg)] on a string receiver.  The result is a position or
    [-1]: a number that is an integer, and kept as one. *)
Definition call_indexOf (v arg : value) : JS Z :=
  match v with
  | VString s => ret (indexOf s (ToString arg))
  | _ => throw TypeError
  end.

Definition alloc (c : cell) : JS loc :=
  fun h => ((h ++ [c])%list, inr (length h)).

Fixpoint filterElems (callback : loc -> JS value) (elems : list loc)
  : JS (list loc) :=
  match elems with
  | [] => ret []
  | x :: rest =>
      keep <- callback x ;;
      kept <- filterElems callback rest ;;
      ret (if truthy keep then x :: kept else kept)
  end.

(** [arr.filter(callback)]: a new array with the elements the callback
    accepts, in order; the receiver is left as it is. *)
Definition Array_filter (arr : loc) (callback : loc -> JS value) : JS loc :=
  h <- get ;;
  match h !! arr with
  | Some (CArray elems) =>
      kept <- filterElems callback elems ;;
      alloc (CArray kept)
  | _ => throw TypeError
  end.

(** *** filterTodos *)

Definition filterTodos (todos filters : loc) : JS loc :=
  let filteredTodos := todos in
  (* Filter by name *)
  name <- getProp filters "name" ;;
  filteredTodos <-
    (if truthy name then
       name <- getProp filters "name" ;;
       lowered <- call_toLowerCase name ;;
       setProp filters "name" lowered ;;;
       Array_filter filteredTodos (fun todo =>
         todoName <- getProp todo "name" ;;
         lowerName <- call_toLowerCase todoName ;;
         needle <- getProp filters "name" ;;
         i <- call_indexOf lowerName needle ;;
         ret (VBoolean (negb (Z.eqb i (-1)))))
     else ret filteredTodos) ;;
  (* Filter by company *)
  company <- getProp filters "company" ;;
  filteredTodos <-
    (if truthy company then
       company <- getProp filters "company" ;;
       lowered <- call_toLowerCase company ;;
       setProp filters "company" lowered ;;;
       Array_filter filteredTodos (fun todo =>
         todoCompany <- getProp todo "company" ;;
         lowerCompany <- call_toLowerCase todoCompany ;;
         needle <- getProp filters "company" ;;
         i <- call_indexOf lowerCompany needle ;;
         ret (VBoolean (negb (Z.eqb i (-1)))))
     else ret filteredTodos) ;;
  ret filteredTodos.

(** *** Records (todo.ts) and the sample data of the tests *)

(** The [Todo] interface the list component and the tests use. *)
Definition todoObject (id owner : string) (status : bool) (body category : string)
  : gmap string value :=
  <["_id" := VString (js id)]> (<["owner" := VString (js owner)]>
  (<["status" := VBoolean status]> (<["body" := VString (js body)]>
  (<["category" := VString (js category)]> ∅)))).

(** The second [Todo] interface of todo.ts, the one whose [name] and
    [company] fields filterTodos reads. *)
Definition namedObject (id name : string) (age : number)
    (company email role : string) : gmap string value :=
  <["_id" := VString (js id)]> (<["name" := VString (js name)]>
  (<["age" := VNumber age]> (<["company" := VString (js company)]>
  (<["email" := VString (js email)]> (<["role" := VString (js role)]> ∅))))).

(** [testTodos] of todo.service.spec.ts: cells 0, 1, 2 are the records,
    cell 3 the array.  In the examples the object literal passed as
    [filters] is the cell after the array. *)
Definition testTodos_heap : list cell :=
  [ CObject (todoObject "chris_id" "Chris" false "UMM is cool" "software design");
    CObject (todoObject "pat_id" "Pat" true "IBM is not cool" "homework");
    CObject (todoObject "jamie_id" "Jamie" false "Frogs, are cool" "groceries");
    CArray [0%nat; 1%nat; 2%nat] ].

Definition testTodos : loc := 3%nat.

(** The records an array reference denotes, in order. *)
Definition arrayRecords (h : list cell) (arr : loc) : option (list cell) :=
  match h !! arr with
  | Some (CArray elems) => mapM (fun l => h !! l) elems
  | _ => None
  end.

(** *** Vocabulary for the properties *)

(** The value a property map gives a key. *)
Definition propOf (props : gmap string value) (key : string) : value :=
  default VUndefined (props !! key).

(** The values of one property over the records of an array. *)
Definition arrayField (h : list cell) (arr : loc) (key : string)
  : option (list value) :=
  match h !! arr with
  | Some (CArray elems) =>
      mapM (fun l => match h !! l with
                     | Some (CObject props) => Some (propOf props key)
                     | _ => None
                     end) elems
  | _ => None
  end.

(** A property map in which the non-empty string under [key] has been
    replaced by what [toLowerCase] gives for it. *)
Definition lowerProp (key : string) (props : gmap string value)
  : gmap string value :=
  match props !! key with
  | Some (VString (c :: s)) => <[key := VString (toLowerCase (c :: s))]> props
  | _ => props
  end.

(** A computation that leaves the heap as it found it. *)
Definition readOnly {A : Type} (m : JS A) : Prop :=
  forall h, fst (m h) = h.

(** The step filterTodos takes for one key, [name] or [company]. *)
Definition filterBy (filters : loc) (key : string) (filteredTodos : loc) : JS loc :=
  v <- getProp filters key ;;
  if truthy v then
    v <- getProp filters key ;;
    lowered <- call_toLowerCase v ;;
    setProp filters key lowered ;;;
    Array_filter filteredTodos (fun todo =>
      field <- getProp todo key ;;
      lowerField <- call_toLowerCase field ;;
      needle <- getProp filters key ;;
      i <- call_indexOf lowerField needle ;;
      ret (VBoolean (negb (Z.eqb i (-1)))))
  else ret filteredTodos.

(** A call is pure when it changes neither argument and returns an array
    that did not exist before. *)
Definition pureCall (h : list cell) (todos filters : loc) : Prop :=
  let '(h', r) := filterTodos todos filters h in
  h' !! todos = h !! todos
  /\ h' !! filters = h !! filters
  /\ forall out, r = inr out -> (length h <= out)%nat.

(** *** The body control of addTodoForm

    Each validator yields the keys of the errors it reports;
    [Validators.compose] merges them, and a control is valid when there is
    none.  [minLength] and [maxLength] look at the [length] of the value
    only; [minLength] lets the empty value through. *)

Definition Validators_required (v : jsstring) : list string :=
  match v with [] => ["required"] | _ :: _ => [] end.

Definition Validators_minLength (n : nat) (v : jsstring) : list string :=
  match v with
  | [] => []
  | _ :: _ => if Nat.ltb (length v) n then ["minlength"] else []
  end.

Definition Validators_maxLength (n : nat) (v : jsstring) : list string :=
  if Nat.ltb n (length v) then ["maxlength"] else [].

Definition existingName (v : jsstring) : list string :=
  if (bool_decide (toLowerCase v = js "abc123")
      || bool_decide (toLowerCase v = js "123abc"))%bool
  then ["existingName"] else [].

Definition Validators_compose (validators : list (jsstring -> list string))
    (v : jsstring) : list string :=
  flat_map (fun validate => validate v) validators.

Definition body_errors : jsstring -> list string :=
  Validators_compose
    [ Validators_required; Validators_minLength 2;
      Validators_maxLength 300; existingName ].

Definition body_valid (v : jsstring) : bool :=
  match body_errors v with [] => true | _ => false end.

End WithBuiltins.

(** *** Builtins to run the examples on

    Numbers are integers, printed in decimal, and [toLowerCase] folds the
    letters A-Z: what JavaScript does on the small integers and the ASCII
    texts of the examples.  No property stated for all builtins depends on
    them. *)

Definition exampleLower (s : jsstring) : jsstring :=
  map (fun c => if ((65 <=? c) && (c <=? 90))%N%bool then (c + 32)%N else c) s.

(** The decimal digits of [n], most significant first, in front of [acc];
    [fuel] bounds their number. *)
Fixpoint exampleDigits (fuel : nat) (n : N) (acc : jsstring) : jsstring :=
  match fuel with
  | O => acc
  | S fuel' =>
      let acc' := (48 + N.modulo n 10)%N :: acc in
      if (N.div n 10 =? 0)%N then acc'
      else exampleDigits fuel' (N.div n 10) acc'
  end.

Definition examplePrint (n : Z) : jsstring :=
  match n with
  | Z0 => js "0"
  | Zpos p => exampleDigits (N.to_nat (N.size (Npos p))) (Npos p) []
  | Zneg p => 45%N :: exampleDigits (N.to_nat (N.size (Npos p))) (Npos p) []
  end.

Definition exampleBuiltins : Builtins :=
  {| number := Z;
     Number_truthy := fun n => negb (Z.eqb n 0);
     Number_toString := examplePrint;
     toLowerCase := exampleLower |}.

(** Two records of the interface with [name] and [company], and their
    array in cell 2. *)
Definition namedTodos_heap : list (cell (B := exampleBuiltins)) :=
  [ CObject (namedObject (B := exampleBuiltins)
               "chris_id" "Chris" 25 "UMM" "chris@this.that" "admin");
    CObject (namedObject (B := exampleBuiltins)
               "pat_id" "Pat" 37 "IBM" "pat@something.com" "editor");
    CArray [0%nat; 1%nat] ].

Definition namedTodos : loc := 2%nat.

End Client.

(* --------------------------------------------------------------------- *)
(** ** The server: listing, and one request after another                *)
(* --------------------------------------------------------------------- *)
Module Listing.
Import StateExn Server.
Local Open Scope monad_scope.

Section Store.

(** How the store orders the documents it has found for a sort document
    is the store's business; the controller only hands the document over. *)
Variable sortDocuments :
  Sort -> list (ObjectId * Todo) -> list (ObjectId * Todo).

(** *** getTodos *)

Definition getTodos : Handler unit :=
  w <- get ;;
  combinedFilter <- liftE (constructFilter (ctx w)) ;;
  let sortingOrder := constructSortingOrder (ctx w) in
  let matchingTodos :=
    map toTodo (sortDocuments sortingOrder
                  (find combinedFilter (todoCollection w))) in
  ctx_json (JsonTodoList matchingTodos) ;;;
  ctx_status OK.

End Store.

(** The world a later request finds: its own context, the collection and
    the identifier supply as the earlier request left them. *)
Definition nextRequest (c : Context) (w : World) : World :=
  {| ctx := c; todoCollection := todoCollection w;
     nextObjectId := nextObjectId w |}.

(** The text deleteTodo reports for an identifier it could not delete. *)
Definition unableToDelete (id : string) : string :=
  "Was unable to delete ID " +:+ id
  +:+ "; perhaps illegal ID or an ID for an item not in the system?".

(** The candidate passes the four checks of addNewTodo. *)
Definition legalTodo (t : Todo) : Prop :=
  (exists b, body t = Some b /\ b <> "")
  /\ (exists o, owner t = Some o /\ o <> "")
  /\ status t = true
  /\ (exists c, category t = Some c /\ In c CAT_REGEX).

End Listing.

(* --------------------------------------------------------------------- *)
(** ** The client: the service's request, the form, the list component   *)
(* --------------------------------------------------------------------- *)
Module ClientApp.
Import StateExn Client.
Local Open Scope monad_scope.

Section WithBuiltins.
Context {B : Builtins}.

(** *** TodoService.getTodos

    [HttpParams] is an immutable map; [set] gives a new one.  The GET
    request is described by its URL and its parameters. *)

Definition roleKey : string := "role".
Definition ageKey : string := "age".
Definition companyKey : string := "company".

Record HttpGet := { url : string; params : gmap string value }.

Definition HttpParams_set (key : string) (v : value)
    (httpParams : gmap string value) : gmap string value :=
  <[key := v]> httpParams.

(** [filters] is optional: [None] is a call without the argument. *)
Definition getTodos (todoUrl : string) (filters : option (gmap string value))
  : HttpGet :=
  let httpParams : gmap string value := ∅ in
  let httpParams :=
    match filters with
    | Some f =>
        let httpParams :=
          if truthy (propOf f "role")
          then HttpParams_set roleKey (propOf f "role") httpParams
          else httpParams in
        let httpParams :=
          if truthy (propOf f "age")
          then HttpParams_set ageKey (VString (ToString (propOf f "age"))) httpParams
          else httpParams in
        let httpParams :=
          if truthy (propOf f "company")
          then HttpParams_set companyKey (propOf f "company") httpParams
          else httpParams in
        httpParams
    | None => httpParams
    end in
  {| url := todoUrl; params := httpParams |}.

(** *** The controls of addTodoForm and their messages *)

(** [Validators.pattern] with [^(a|b|...)$]: the empty value is let
    through, any other value has to be one of the alternatives. *)
Definition Validators_pattern (alternatives : list string) (v : jsstring)
  : list string :=
  match v with
  | [] => []
  | _ :: _ =>
      if existsb (fun a => bool_decide (v = js a)) alternatives
      then [] else ["pattern"]
  end.

Inductive Control := body | status | owner | category.

(** The value of the form: the text of each control. *)
Definition FormValue : Type := Control -> jsstring.

Definition validators (name : Control) : jsstring -> list string :=
  match name with
  | body => body_errors
  | status =>
      Validators_compose
        [ Validators_required; Validators_pattern ["complete"; "incomplete"] ]
  | owner => Validators_compose [ Validators_required ]
  | category =>
      Validators_compose
        [ Validators_required;
          Validators_pattern
            ["groceries"; "homework"; "software design"; "video games"] ]
  end.

Definition errors (form : FormValue) (name : Control) : list string :=
  validators name (form name).

Definition control_valid (form : FormValue) (name : Control) : bool :=
  match errors form name with [] => true | _ => false end.

Definition form_valid (form : FormValue) : bool :=
  (control_valid form body && control_valid form status
   && control_valid form owner && control_valid form category)%bool.

Definition hasError (form : FormValue) (name : Control) (type : string) : bool :=
  existsb (String.eqb type) (errors form name).

Definition addTodoValidationMessages (name : Control) : list (string * string) :=
  match name with
  | body =>
      [ ("required", "Body is required");
        ("minlength", "Body must be at least 2 characters long");
        ("maxlength", "Body cannot be more than 300 characters long") ]
  | owner => [ ("required", "owner is required") ]
  | status => [ ("required", "Status is required") ]
  | category =>
      [ ("required", "Category is required");
        ("pattern",
         "Category must be Groceries, Homework, Software Design, or Video Games") ]
  end.

Fixpoint firstMessage (form : FormValue) (name : Control)
    (messages : list (string * string)) : string :=
  match messages with
  | [] => "Unknown error"
  | (type, message) :: rest =>
      if hasError form name type then message
      else firstMessage form name rest
  end.

Definition getErrorMessage (form : FormValue) (name : Control) : string :=
  firstMessage form name (addTodoValidationMessages name).

(** *** TodoListComponent.updateFilter *)

Record TodoListComponent := {
  serverFilteredTodos : loc;
  filteredTodos : option loc;
  todoOwner : value;
  todoStatus : value;
  todoBody : value;
  todoCategory : value;
  todoLimit : value;
  todoOrder : value
}.

(** The object literal updateFilter passes as [filters]. *)
Definition filtersLiteral (this : TodoListComponent) : gmap string value :=
  <["owner" := todoOwner this]> (<["status" := todoStatus this]>
  (<["body" := todoBody this]> (<["category" := todoCategory this]>
  (<["limit" := todoLimit this]> (<["order" := todoOrder this]> ∅))))).

Definition updateFilter (this : TodoListComponent) : JS TodoListComponent :=
  filters <- alloc (CObject (filtersLiteral this)) ;;
  result <- filterTodos (serverFilteredTodos this) filters ;;
  ret {| serverFilteredTodos := serverFilteredTodos this;
         filteredTodos := Some result;
         todoOwner := todoOwner this; todoStatus := todoStatus this;
         todoBody := todoBody this; todoCategory := todoCategory this;
         todoLimit := todoLimit this; todoOrder := todoOrder this |}.

(** *** Vocabulary for the properties *)

(** The record at [l] has a string under [key]. *)
Definition hasText (h : list cell) (key : string) (l : loc) : Prop :=
  exists props s, h !! l = Some (CObject props) /\ props !! key = Some (VString s).

(** The same, decided. *)
Definition hasTextb (h : list cell) (key : string) (l : loc) : bool :=
  match h !! l with
  | Some (CObject props) =>
      match props !! key with Some (VString _) => true | _ => false end
  | _ => false
  end.

(** The record at [l] has a string under [key], and [needle] occurs in
    what [toLowerCase] gives for it. *)
Definition keeps (h : list cell) (key : string) (needle : jsstring) (l : loc)
  : bool :=
  match h !! l with
  | Some (CObject props) =>
      match props !! key with
      | Some (VString s) => negb (Z.eqb (indexOf (toLowerCase s) needle) (-1))
      | _ => false
      end
  | _ => false
  end.

(** The same as a proposition, for a filter text that is itself passed
    through [toLowerCase]. *)
Definition containsText (h : list cell) (key : string) (text : jsstring)
    (l : loc) : Prop :=
  exists props s, h !! l = Some (CObject props)
    /\ props !! key = Some (VString s)
    /\ occursIn (toLowerCase text) (toLowerCase s).

End WithBuiltins.

End ClientApp.

(* ===================================================================== *)
(** * Part II: properties                                                *)
(* ===================================================================== *)

(** ** Substring search *)
Module StrFacts.
Import Str.

Lemma startsWith_spec (s p : string) :
  startsWith s p = true <-> exists post, s = p +:+ post.
Proof.
  revert s. induction p as [|b p IH]; intros s; simpl.
  - split; [intros _; exists s; reflexivity | reflexivity].
  - destruct s as [|a s]; simpl.
    + split; [discriminate | intros [post H]; discriminate].
    + rewrite andb_true_iff, Ascii.eqb_eq, IH. split.
      * intros [-> [post ->]]. exists post. reflexivity.
      * intros [post H]. injection H as -> ->. split; [reflexivity | eauto].
Qed.

Lemma startsWith_empty (s : string) : startsWith s "" = true.
Proof. destruct s; reflexivity. Qed.

Lemma occursIn_prefix (s p : string) : startsWith s p = true -> occursIn p s.
Proof.
  intros H. apply startsWith_spec in H as [post ->]. exists "", post. reflexivity.
Qed.

Lemma occursIn_tail (needle s : string) (c : ascii) :
  occursIn needle s -> occursIn needle (String c s).
Proof. intros (pre & post & ->). exists (String c pre), post. reflexivity. Qed.

Lemma occursIn_cons_inv (needle s : string) (c : ascii) :
  occursIn needle (String c s) ->
  startsWith (String c s) needle = true \/ occursIn needle s.
Proof.
  intros (pre & post & H). destruct pre as [|a pre]; simpl in H.
  - left. apply startsWith_spec. exists post. exact H.
  - right. injection H as _ ->. exists pre, post. reflexivity.
Qed.

Lemma occursIn_empty_inv (needle : string) :
  occursIn needle "" -> startsWith "" needle = true.
Proof.
  intros (pre & post & H). destruct pre; simpl in H; [|discriminate].
  destruct needle; [reflexivity | discriminate].
Qed.

(** The search finds an occurrence exactly when there is one; a position
    it reports is never before the starting offset. *)
Lemma indexOf_from_spec (s needle : string) (i : Z) :
  0 <= i ->
  (indexOf_from s needle i = -1 /\ ~ occursIn needle s)
  \/ (i <= indexOf_from s needle i /\ occursIn needle s).
Proof.
  revert i. induction s as [|c s IH]; intros i Hi; simpl.
  - destruct (startsWith "" needle) eqn:Hp.
    + right. split; [lia | apply occursIn_prefix; exact Hp].
    + left. split; [reflexivity|]. intros H%occursIn_empty_inv. congruence.
  - destruct (startsWith (String c s) needle) eqn:Hp.
    + right. split; [lia | apply occursIn_prefix; exact Hp].
    + destruct (IH (i + 1) ltac:(lia)) as [[-> Hno] | [Hle Hyes]].
      * left. split; [reflexivity|].
        intros [H | H]%occursIn_cons_inv; [congruence | tauto].
      * right. split; [lia | apply occursIn_tail; exact Hyes].
Qed.

Lemma indexOf_found (s needle : string) :
  negb (Z.eqb (indexOf s needle) (-1)) = true <-> occursIn needle s.
Proof.
  unfold indexOf. rewrite negb_true_iff, Z.eqb_neq.
  destruct (indexOf_from_spec s needle 0 ltac:(lia)) as [[H Hno] | [H Hyes]].
  - split; [intros; congruence | tauto].
  - split; [intros _; exact Hyes | intros _; lia].
Qed.

Lemma occursIn_empty (s : string) : occursIn "" s.
Proof. exists "", s. reflexivity. Qed.

End StrFacts.

(** ** The server *)
Module ServerSpec.
Import StateExn Server.

(** *** Query parameters *)

Lemma containsKey_queryParam (ctx : Context) (key : string) :
  queryParamMap_containsKey ctx key =
  match queryParam ctx key with Some _ => true | None => false end.
Proof.
  unfold queryParamMap_containsKey, queryParam, queryParams.
  induction (queryString ctx) as [|[k v] q IH]; simpl; [reflexivity|].
  destruct (String.eqb k key); simpl; [reflexivity | exact IH].
Qed.

(** *** constructFilter *)

Lemma constructFilter_eq (ctx : Context) :
  constructFilter ctx =
  inr (match (regexFor ctx OWNER_KEY ++ regexFor ctx STATUS_KEY
              ++ regexFor ctx BODY_KEY ++ regexFor ctx CATEGORY_KEY)%list with
       | [] => Document_empty
       | f :: fs => Filters_and (f :: fs)
       end).
Proof.
  unfold constructFilter, regexFor. rewrite !containsKey_queryParam.
  destruct (queryParam ctx OWNER_KEY), (queryParam ctx STATUS_KEY),
    (queryParam ctx BODY_KEY), (queryParam ctx CATEGORY_KEY); reflexivity.
Qed.

Lemma Pattern_find_quoted (v s : string) :
  Pattern_find (Pattern_compile (Pattern_quote v) CASE_INSENSITIVE) s = true
  <-> Str.occursInIgnoreCase v s.
Proof. unfold Pattern_find; simpl. apply StrFacts.indexOf_found. Qed.

Lemma regexFor_matches (ctx : Context) (key : string) (d : ObjectId * Todo) :
  forallb (fun g => matches g d) (regexFor ctx key) = true
  <-> (forall v, queryParam ctx key = Some v -> fieldContains d key v).
Proof.
  unfold regexFor, fieldContains. destruct (queryParam ctx key) as [v|]; simpl.
  - rewrite andb_true_r. split.
    + intros H w [= <-]. destruct (fieldText d key) as [s|]; [|discriminate].
      exists s. split; [reflexivity | apply Pattern_find_quoted; exact H].
    + intros H. destruct (H v eq_refl) as (s & -> & Hs).
      apply Pattern_find_quoted; exact Hs.
  - split; [discriminate | reflexivity].
Qed.

Lemma matches_combined (fs : list Bson) (d : ObjectId * Todo) :
  matches (match fs with [] => Document_empty | f :: fs' => Filters_and (f :: fs') end) d
  = forallb (fun g => matches g d) fs.
Proof. destruct fs; reflexivity. Qed.

(** C1: constructFilter always returns a filter; a document passes it
    exactly when, for every key among owner, status, body and category that
    the request supplies, the supplied value occurs in the document's field
    as an unanchored substring up to case (conjunction over the present
    keys); with none of the keys present the filter passes every document
    and [find] returns the whole collection. *)
Theorem constructFilter_conjunction_of_substring_matches (ctx : Context) :
  exists f, constructFilter ctx = inr f
    /\ (forall d, matches f d = true <->
          forall key v, In key filterKeys -> queryParam ctx key = Some v ->
                        fieldContains d key v)
    /\ ((forall key, In key filterKeys -> queryParamMap_containsKey ctx key = false) ->
        f = Document_empty /\ forall coll, find f coll = coll).
Proof.
  eexists. split; [apply constructFilter_eq|]. split.
  - intros d. rewrite matches_combined, !forallb_app, !andb_true_iff,
      !regexFor_matches. unfold filterKeys. simpl. split.
    + intros (Ho & Hs & Hb & Hc) key v [<- | [<- | [<- | [<- | []]]]]; auto.
    + intros H. repeat split; intros v Hv; apply H; auto.
  - intros Hnone. unfold filterKeys in Hnone; simpl in Hnone.
    assert (Hq : forall key, In key filterKeys -> regexFor ctx key = []).
    { intros key Hk. specialize (Hnone key Hk).
      rewrite containsKey_queryParam in Hnone. unfold regexFor.
      destruct (queryParam ctx key); [discriminate | reflexivity]. }
    unfold filterKeys in Hq; simpl in Hq.
    rewrite !Hq by auto 6. simpl. split; [reflexivity|].
    intros coll. unfold find. simpl. induction coll; simpl; congruence.
Qed.

(** On the sample collection: a request for status TRU and owner r
    passes Jerry's todo (owner Jerry, status true) and refuses Swan's
    (owner Swan, status false); a request with none of the keys lists the
    whole collection. *)
Lemma constructFilter_on_requests :
  (exists f,
     constructFilter (request "" [("status", "TRU"); ("owner", "r")] None) = inr f
     /\ matches f (1%N, {| _id := None; owner := Some "Jerry"; status := true;
                           body := Some "Prominent skier";
                           category := Some "groceries" |}) = true
     /\ matches f (2%N, {| _id := None; owner := Some "Swan"; status := false;
                           body := Some "crazy";
                           category := Some "software design" |}) = false)
  /\ (exists f, constructFilter (request "" [("sortby", "body")] None) = inr f
                /\ find f testCollection = testCollection).
Proof.
  split.
  - destruct (constructFilter_conjunction_of_substring_matches
                (request "" [("status", "TRU"); ("owner", "r")] None))
      as (f & Hf & Hiff & _).
    exists f. split; [exact Hf|]. split.
    + apply Hiff. intros key v [<- | [<- | [<- | [<- | []]]]] Hq;
        vm_compute in Hq; try discriminate; injection Hq as <-.
      * exists "Jerry". split; [reflexivity|]. exists "je", "ry". reflexivity.
      * exists "true". split; [reflexivity|]. exists "", "e". reflexivity.
    + match goal with |- ?m = false => destruct m eqn:E end; [|reflexivity].
      exfalso. pose proof (proj1 (Hiff _) E) as Hall.
      destruct (Hall "owner" "r") as (s & Hs & Hocc);
        [left; reflexivity | reflexivity |].
      vm_compute in Hs. injection Hs as <-.
      apply StrFacts.indexOf_found in Hocc. vm_compute in Hocc. discriminate.
  - destruct (constructFilter_conjunction_of_substring_matches
                (request "" [("sortby", "body")] None)) as (f & Hf & _ & Hnone).
    exists f. split; [exact Hf|]. apply Hnone.
    intros key [<- | [<- | [<- | [<- | []]]]]; reflexivity.
Defined.

(** *** Identifiers *)

Lemma parseHexString_total (s : string) (acc : N) :
  forallb (fun c => bool_decide (is_Some (hexDigitValue c)))
          (list_ascii_of_string s) = true ->
  exists o, parseHexString s acc = Some o.
Proof.
  revert acc. induction s as [|c s IH]; intros acc; simpl.
  - eauto.
  - rewrite andb_true_iff, bool_decide_eq_true. intros [[d Hd] Hs].
    rewrite Hd. apply IH, Hs.
Qed.

Lemma new_ObjectId_valid (id : string) :
  ObjectId_isValid id = true -> exists oid, new_ObjectId id = inr oid.
Proof.
  intros H. unfold new_ObjectId. rewrite H.
  unfold ObjectId_isValid in H. apply andb_true_iff in H as [_ H].
  destruct (parseHexString_total id 0%N H) as [o ->]. eauto.
Qed.

Lemma new_ObjectId_invalid (id : string) :
  ObjectId_isValid id = false -> new_ObjectId id = inl IllegalArgumentException.
Proof. intros H. unfold new_ObjectId. rewrite H. reflexivity. Qed.

Lemma matches_eq_id (oid : ObjectId) (d : ObjectId * Todo) :
  matches (Filters_eq "_id" (BsonObjectId oid)) d = N.eqb (fst d) oid.
Proof. reflexivity. Qed.

Lemma head_find_None (f : Bson) (coll : list (ObjectId * Todo)) :
  (forall d, In d coll -> matches f d = false) -> head (find f coll) = None.
Proof.
  unfold find. induction coll as [|d coll IH]; intros H; simpl; [reflexivity|].
  rewrite (H d) by (left; reflexivity). apply IH. intros; apply H; right; assumption.
Qed.

Lemma head_find_Some (f : Bson) (coll : list (ObjectId * Todo)) :
  (exists d, In d coll /\ matches f d = true) ->
  exists d, head (find f coll) = Some d /\ In d coll /\ matches f d = true.
Proof.
  unfold find. induction coll as [|d coll IH]; intros (x & Hin & Hx); simpl.
  - destruct Hin.
  - destruct (matches f d) eqn:Hd.
    + exists d. simpl. auto.
    + destruct Hin as [-> | Hin]; [congruence|].
      destruct IH as (y & Hy & Hiny & Hmy); [eauto|]. exists y. auto.
Qed.

(** *** getTodo *)

(** Unfold a handler down to the primitive steps of the monad. *)
Ltac run_handler :=
  cbv beta iota zeta delta
    [getTodo deleteTodo addNewTodo find_first deleteOne insertOne ctx_json
     ctx_status bind get put ret throw tryCatch liftE].

(** C7: looking a todo up by identifier.  An identifier that is not a
    legal ObjectId gives a BadRequestResponse (status 400) with the message
    "The requested todo id wasn't a legal Mongo Object ID."; a legal one
    that no document carries gives a NotFoundResponse (status 404) with the
    message "The requested todo was not found"; otherwise the response is
    the JSON of one document with that identifier and status OK.  The
    collection is never changed. *)
Theorem getTodo_outcomes (w : World) :
  (ObjectId_isValid (pathParam_id (ctx w)) = false ->
   exists e, getTodo w = (w, inl e)
     /\ e = BadRequestResponse "The requested todo id wasn't a legal Mongo Object ID."
     /\ responseCode e = Some 400)
  /\ (ObjectId_isValid (pathParam_id (ctx w)) = true ->
      exists oid, new_ObjectId (pathParam_id (ctx w)) = inr oid
        /\ ((forall d, In d (todoCollection w) -> fst d <> oid) ->
            exists e, getTodo w = (w, inl e)
              /\ e = NotFoundResponse "The requested todo was not found"
              /\ responseCode e = Some 404)
        /\ ((exists d, In d (todoCollection w) /\ fst d = oid) ->
            exists d w', In d (todoCollection w) /\ fst d = oid
              /\ getTodo w = (w', inr tt)
              /\ response_json (ctx w') = Some (JsonTodo (toTodo d))
              /\ response_status (ctx w') = Some OK
              /\ statusCode OK = 200
              /\ todoCollection w' = todoCollection w)).
Proof.
  split.
  - intros Hbad. eexists. split; [|split; reflexivity].
    run_handler. rewrite (new_ObjectId_invalid _ Hbad). reflexivity.
  - intros Hok. destruct (new_ObjectId_valid _ Hok) as [oid Hoid].
    exists oid. split; [exact Hoid|]. split.
    + intros Hnone. eexists. split; [|split; reflexivity].
      run_handler. rewrite Hoid. rewrite head_find_None; [reflexivity|].
      intros d Hd. rewrite matches_eq_id. apply N.eqb_neq, Hnone, Hd.
    + intros (x & Hx & Hid).
      destruct (head_find_Some (Filters_eq "_id" (BsonObjectId oid)) (todoCollection w))
        as (d & Hhead & Hin & Hm).
      { exists x. split; [exact Hx|]. rewrite matches_eq_id. apply N.eqb_eq, Hid. }
      rewrite matches_eq_id in Hm. apply N.eqb_eq in Hm.
      exists d. eexists. split; [exact Hin|]. split; [exact Hm|].
      split; [run_handler; rewrite Hoid, Hhead; reflexivity|].
      repeat split.
Qed.

Lemma getTodo_outcomes_witness :
  getTodo (world (request "bad" [] None))
  = (world (request "bad" [] None),
     inl (BadRequestResponse "The requested todo id wasn't a legal Mongo Object ID."))
  /\ getTodo (world (request "588935f5c668650dc77df581" [] None))
     = (world (request "588935f5c668650dc77df581" [] None),
        inl (NotFoundResponse "The requested todo was not found"))
  /\ exists d w',
       getTodo (world (request "58909b5b0e0c68c320a1f581" [] None)) = (w', inr tt)
       /\ response_json (ctx w') = Some (JsonTodo (toTodo d))
       /\ owner (snd d) = Some "Fry"
       /\ response_status (ctx w') = Some OK.
Proof.
  split; [|split].
  - destruct (getTodo_outcomes (world (request "bad" [] None))) as [H _].
    destruct (H eq_refl) as (e & He & -> & _). exact He.
  - destruct (getTodo_outcomes (world (request "588935f5c668650dc77df581" [] None)))
      as [_ H].
    destruct (H eq_refl) as (oid & Hoid & Hnone & _).
    vm_compute in Hoid. injection Hoid as <-.
    destruct Hnone as (e & He & -> & _); [|exact He].
    intros d [<- | [<- | [<- | [<- | []]]]]; vm_compute; discriminate.
  - destruct (getTodo_outcomes (world (request "58909b5b0e0c68c320a1f581" [] None)))
      as [_ H].
    destruct (H eq_refl) as (oid & Hoid & _ & Hsome).
    vm_compute in Hoid. injection Hoid as <-.
    destruct Hsome as (d & w' & Hin & Hid & Hrun & Hjson & Hstatus & _).
    { exists (frysId, {| _id := None; owner := Some "Fry"; status := true;
                         body := Some "Bullfrog ranger";
                         category := Some "homework" |}).
      split; [do 3 right; left; reflexivity | reflexivity]. }
    exists d, w'. repeat split; try assumption.
    destruct Hin as [<- | [<- | [<- | [<- | []]]]];
      first [reflexivity | vm_compute in Hid; discriminate].
Defined.

(** *** deleteTodo *)

(** C10: when the identifier is not a legal ObjectId, deleteTodo ends with
    the IllegalArgumentException of the ObjectId constructor: nothing
    catches it, so the outcome is neither a NotFoundResponse nor a
    BadRequestResponse, no status is written and the collection is as
    before; getTodo on the same request catches the exception and answers
    with a BadRequestResponse. *)
Theorem deleteTodo_malformed_id_propagates (w : World) :
  ObjectId_isValid (pathParam_id (ctx w)) = false ->
  deleteTodo w = (w, inl IllegalArgumentException)
  /\ (forall message, snd (deleteTodo w) <> inl (NotFoundResponse message))
  /\ (forall message, snd (deleteTodo w) <> inl (BadRequestResponse message))
  /\ getTodo w
     = (w, inl (BadRequestResponse
                  "The requested todo id wasn't a legal Mongo Object ID.")).
Proof.
  intros Hbad.
  assert (Hdel : deleteTodo w = (w, inl IllegalArgumentException)).
  { run_handler. rewrite (new_ObjectId_invalid _ Hbad). reflexivity. }
  rewrite Hdel. repeat split; try discriminate.
  run_handler. rewrite (new_ObjectId_invalid _ Hbad). reflexivity.
Qed.

Lemma deleteTodo_malformed_id_witness :
  deleteTodo (world (request "bad" [] None))
  = (world (request "bad" [] None), inl IllegalArgumentException)
  /\ getTodo (world (request "bad" [] None))
     = (world (request "bad" [] None),
        inl (BadRequestResponse
               "The requested todo id wasn't a legal Mongo Object ID.")).
Proof.
  destruct (deleteTodo_malformed_id_propagates (world (request "bad" [] None)) eq_refl)
    as (Hdel & _ & _ & Hget).
  split; [exact Hdel | exact Hget].
Defined.

(** For contrast, the two paths deleteTodo does handle. *)
Lemma deleteTodo_found_then_missing :
  exists w1,
    deleteTodo (world (request "58909b5b0e0c68c320a1f581" [] None)) = (w1, inr tt)
    /\ response_status (ctx w1) = Some OK
    /\ length (todoCollection w1) = 3%nat
    /\ exists w2 message,
         deleteTodo w1 = (w2, inl (NotFoundResponse message))
         /\ response_status (ctx w2) = Some NOT_FOUND
         /\ todoCollection w2 = todoCollection w1.
Proof.
  eexists. split; [vm_compute; reflexivity|].
  split; [reflexivity|]. split; [reflexivity|].
  eexists. eexists. split; [vm_compute; reflexivity|]. split; reflexivity.
Qed.

(** *** constructSortingOrder *)

(** C8, as the code has it: a request without a sortby parameter is
    ordered by the field name "name", which no stored document has; the
    direction is ascending when no sortorder parameter is given. *)
Theorem constructSortingOrder_default (ctx : Context) :
  queryParam ctx "sortby" = None ->
  sortField (constructSortingOrder ctx) = "name"
  /\ (forall d, fieldValue d "name" = None)
  /\ (queryParam ctx "sortorder" = None ->
      constructSortingOrder ctx = Sorts_ascending "name").
Proof.
  intros Hby. unfold constructSortingOrder. rewrite Hby. simpl.
  split; [|split].
  - destruct (String.eqb _ _); reflexivity.
  - intros d. reflexivity.
  - intros ->. reflexivity.
Qed.

Lemma constructSortingOrder_default_witness :
  constructSortingOrder (request "" [("owner", "Jerry")] None)
  = Sorts_ascending "name".
Proof.
  destruct (constructSortingOrder_default (request "" [("owner", "Jerry")] None) eq_refl)
    as (_ & _ & H).
  exact (H eq_refl).
Defined.

(** C8, as the claim has it, fails: with neither parameter the order is
    not by the owner field. *)
Lemma constructSortingOrder_default_not_owner :
  ~ (sortField (constructSortingOrder (request "" [] None)) = OWNER_KEY).
Proof. vm_compute. discriminate. Qed.

(** The direction token: "desc" alone gives a descending order. *)
Lemma constructSortingOrder_direction (ctx : Context) (field : string) :
  queryParam ctx "sortby" = Some field ->
  constructSortingOrder ctx
  = if bool_decide (queryParam ctx "sortorder" = Some "desc")
    then Sorts_descending field else Sorts_ascending field.
Proof.
  intros Hby. unfold constructSortingOrder. rewrite Hby. simpl.
  destruct (queryParam ctx "sortorder") as [o|]; simpl.
  - destruct (String.eqb o "desc") eqn:Ho.
    + apply String.eqb_eq in Ho as ->. rewrite bool_decide_eq_true_2; reflexivity.
    + apply String.eqb_neq in Ho. rewrite bool_decide_eq_false_2; [reflexivity|congruence].
  - reflexivity.
Qed.

(** *** addNewTodo *)

Lemma nonempty_length (b : string) : b <> "" -> Nat.ltb 0 (String.length b) = true.
Proof. destruct b; [congruence | reflexivity]. Qed.

Lemma String_matches_In (c : string) (alternatives : list string) :
  String_matches c alternatives = true <-> In c alternatives.
Proof.
  unfold String_matches. rewrite existsb_exists. split.
  - intros (x & Hx & ->%String.eqb_eq). exact Hx.
  - intros H. exists c. split; [exact H | apply String.eqb_refl].
Qed.

(** What addNewTodo does once the body has been deserialised: the checks
    decide between an exception in the unchanged world and an insert. *)
Lemma addNewTodo_run (w : World) (t : Todo) :
  requestBody (ctx w) = Some t ->
  addNewTodo w =
  match runChecks addNewTodo_checks t with
  | inl e => (w, inl e)
  | inr t' =>
      ({| ctx := {| pathParam_id := pathParam_id (ctx w);
                    queryString := queryString (ctx w);
                    requestBody := requestBody (ctx w);
                    response_json :=
                      Some (JsonMap [("id", toHexString (nextObjectId w))]);
                    response_status := Some CREATED |};
          todoCollection := (todoCollection w ++ [(nextObjectId w, t')])%list;
          nextObjectId := (nextObjectId w + 1)%N |}, inr tt)
  end.
Proof.
  intros Hbody. run_handler. unfold BodyValidator_get.
  destruct (runChecks addNewTodo_checks t) as [e|t'] eqn:Hchecks;
    rewrite Hbody, Hchecks; [reflexivity|].
  cbn [ctx todoCollection nextObjectId pathParam_id queryString requestBody
       response_json response_status].
  rewrite Hbody. reflexivity.
Qed.

(** C6, where the code departs from it: a candidate whose body and owner
    are non-empty, whose category is one of the enumeration and whose
    status is false is refused by the third check, with the message
    "Todo must have a non-empty status"; the world, and with it the
    collection, is as before. *)
Theorem addNewTodo_rejects_status_false (w : World) (t : Todo) (b o c : string) :
  requestBody (ctx w) = Some t ->
  body t = Some b -> b <> "" ->
  owner t = Some o -> o <> "" ->
  category t = Some c -> In c CAT_REGEX ->
  status t = false ->
  addNewTodo w = (w, inl (ValidationException "Todo must have a non-empty status")).
Proof.
  intros Hreq Hb Hbne Ho Hone Hc Hin Hs. rewrite (addNewTodo_run w t Hreq).
  simpl. rewrite Hb, Ho, Hs, !nonempty_length by assumption. reflexivity.
Qed.

Lemma addNewTodo_rejects_status_false_witness :
  let t := {| _id := None; owner := Some "Jerry"; status := false;
              body := Some "cool stuff"; category := Some "homework" |} in
  addNewTodo (world (request "" [] (Some t)))
  = (world (request "" [] (Some t)),
     inl (ValidationException "Todo must have a non-empty status")).
Proof.
  intros t.
  apply (addNewTodo_rejects_status_false (world (request "" [] (Some t))) t
           "cool stuff" "Jerry" "homework");
    first [reflexivity | discriminate | right; left; reflexivity].
Defined.

Lemma body_valid_bounds {B : Client.Builtins} (v : Client.jsstring) :
  Client.body_valid v = true ->
  (2 <= length v)%nat /\ (length v <= 300)%nat.
Proof.
  unfold Client.body_valid, Client.body_errors, Client.Validators_compose,
    Client.Validators_required, Client.Validators_minLength,
    Client.Validators_maxLength.
  cbn [flat_map]. destruct v as [|c v]; [discriminate|].
  destruct (Nat.ltb_spec (length (c :: v)) 2); [discriminate|].
  destruct (Nat.ltb_spec 300 (length (c :: v))); [discriminate|].
  intros _. lia.
Qed.

(** C5, as the code has it: the server refuses a null or an empty body
    with the message of the first check and leaves the world as it was; any
    other body passes that check whatever its length, so that a candidate
    with a non-empty body, a non-empty owner, status true and a category of
    the enumeration is inserted under the next identifier and answered with
    that identifier and status CREATED.  The bound of 2 to 300 characters
    is kept by the body control of the client form only, on the [length]
    of the text. *)
Theorem addNewTodo_body_check {B : Client.Builtins} (w : World) (t : Todo) :
  requestBody (ctx w) = Some t ->
  (body t = None \/ body t = Some "" ->
   addNewTodo w = (w, inl (ValidationException "Todo must have a non-empty body")))
  /\ (forall b o c,
        body t = Some b -> b <> "" ->
        owner t = Some o -> o <> "" ->
        status t = true ->
        category t = Some c -> In c CAT_REGEX ->
        exists w', addNewTodo w = (w', inr tt)
          /\ todoCollection w' = (todoCollection w ++ [(nextObjectId w, t)])%list
          /\ response_json (ctx w')
             = Some (JsonMap [("id", toHexString (nextObjectId w))])
          /\ response_status (ctx w') = Some CREATED)
  /\ (forall v, Client.body_valid v = true ->
                (2 <= length v)%nat /\ (length v <= 300)%nat).
Proof.
  intros Hreq. rewrite (addNewTodo_run w t Hreq). split; [|split].
  - intros [Hb | Hb]; simpl; rewrite Hb; reflexivity.
  - intros b o c Hb Hbne Ho Hone Hs Hc Hin.
    destruct b; [congruence|]. destruct o; [congruence|].
    eexists. split.
    + simpl. rewrite Hb, Ho, Hs, Hc. simpl.
      destruct Hin as [<- | [<- | [<- | [<- | []]]]]; reflexivity.
    + repeat split.
  - apply body_valid_bounds.
Qed.

Lemma addNewTodo_body_check_witness :
  (let t := {| _id := None; owner := Some "Jerry"; status := true;
               body := Some ""; category := Some "homework" |} in
   addNewTodo (world (request "" [] (Some t)))
   = (world (request "" [] (Some t)),
      inl (ValidationException "Todo must have a non-empty body")))
  /\ (let t := {| _id := None; owner := Some "Jerry"; status := true;
                  body := Some "x"; category := Some "homework" |} in
      exists w', addNewTodo (world (request "" [] (Some t))) = (w', inr tt)
        /\ todoCollection w' = (testCollection ++ [(4%N, t)])%list
        /\ response_status (ctx w') = Some CREATED).
Proof.
  split; intros t.
  - destruct (addNewTodo_body_check (B := Client.exampleBuiltins)
                (world (request "" [] (Some t))) t eq_refl)
      as (H & _ & _).
    apply H. right. reflexivity.
  - destruct (addNewTodo_body_check (B := Client.exampleBuiltins)
                (world (request "" [] (Some t))) t eq_refl)
      as (_ & H & _).
    destruct (H "x" "Jerry" "homework") as (w' & Hrun & Hcoll & _ & Hstatus);
      try reflexivity; try discriminate.
    { right. left. reflexivity. }
    exists w'. repeat split; assumption.
Defined.

(** C5, as the claim has it, fails: a body of one character and a body of
    301 characters are both let through to the store. *)
Lemma addNewTodo_accepts_short_and_long_body :
  ~ rejectedBeforeStore
      (world (request "" []
                (Some {| _id := None; owner := Some "Jerry"; status := true;
                         body := Some "x"; category := Some "homework" |})))
  /\ ~ rejectedBeforeStore
        (world (request "" []
                  (Some {| _id := None; owner := Some "Jerry"; status := true;
                           body := Some (String_repeat "x" 301);
                           category := Some "homework" |}))).
Proof.
  split; intros [message H]; vm_compute in H; discriminate.
Qed.

End ServerSpec.

(** ** Substring search in JavaScript strings *)
Module JsFacts.
Import Client.

Lemma js_startsWith_spec (s p : jsstring) :
  startsWith s p = true <-> exists post, s = (p ++ post)%list.
Proof.
  revert s. induction p as [|b p IH]; intros s; simpl.
  - split; [intros _; exists s; reflexivity | reflexivity].
  - destruct s as [|a s]; simpl.
    + split; [discriminate | intros [post H]; discriminate].
    + rewrite andb_true_iff, N.eqb_eq, IH. split.
      * intros [-> [post ->]]. exists post. reflexivity.
      * intros [post H]. injection H as -> ->. split; [reflexivity | eauto].
Qed.

Lemma js_occursIn_prefix (s p : jsstring) : startsWith s p = true -> occursIn p s.
Proof.
  intros H. apply js_startsWith_spec in H as [post ->]. exists [], post. reflexivity.
Qed.

Lemma js_occursIn_tail (needle s : jsstring) (c : N) :
  occursIn needle s -> occursIn needle (c :: s).
Proof. intros (pre & post & ->). exists (c :: pre), post. reflexivity. Qed.

Lemma js_occursIn_cons_inv (needle s : jsstring) (c : N) :
  occursIn needle (c :: s) ->
  startsWith (c :: s) needle = true \/ occursIn needle s.
Proof.
  intros (pre & post & H). destruct pre as [|a pre]; simpl in H.
  - left. apply js_startsWith_spec. exists post. exact H.
  - right. injection H as _ ->. exists pre, post. reflexivity.
Qed.

Lemma js_occursIn_empty_inv (needle : jsstring) :
  occursIn needle [] -> startsWith [] needle = true.
Proof.
  intros (pre & post & H). destruct pre; simpl in H; [|discriminate].
  destruct needle; [reflexivity | discriminate].
Qed.

(** The search finds an occurrence exactly when there is one; a position
    it reports is never before the starting offset. *)
Lemma js_indexOf_from_spec (s needle : jsstring) (i : Z) :
  0 <= i ->
  (indexOf_from s needle i = -1 /\ ~ occursIn needle s)
  \/ (i <= indexOf_from s needle i /\ occursIn needle s).
Proof.
  revert i. induction s as [|c s IH]; intros i Hi; simpl.
  - destruct (startsWith [] needle) eqn:Hp.
    + right. split; [lia | apply js_occursIn_prefix; exact Hp].
    + left. split; [reflexivity|]. intros H%js_occursIn_empty_inv. congruence.
  - destruct (startsWith (c :: s) needle) eqn:Hp.
    + right. split; [lia | apply js_occursIn_prefix; exact Hp].
    + destruct (IH (i + 1) ltac:(lia)) as [[-> Hno] | [Hle Hyes]].
      * left. split; [reflexivity|].
        intros [H | H]%js_occursIn_cons_inv; [congruence | tauto].
      * right. split; [lia | apply js_occursIn_tail; exact Hyes].
Qed.

Lemma js_indexOf_found (s needle : jsstring) :
  negb (Z.eqb (indexOf s needle) (-1)) = true <-> occursIn needle s.
Proof.
  unfold indexOf. rewrite negb_true_iff, Z.eqb_neq.
  destruct (js_indexOf_from_spec s needle 0 ltac:(lia)) as [[H Hno] | [H Hyes]].
  - split; [intros; congruence | tauto].
  - split; [intros _; exact Hyes | intros _; lia].
Qed.

End JsFacts.

(** ** The client *)
Module ClientSpec.
Import StateExn Client.
Local Open Scope monad_scope.

Create HintDb readonly.

Section General.
Context {B : Builtins}.

(** *** Read-only computations *)

Lemma readOnly_ret {A : Type} (a : A) : readOnly (ret a).
Proof. intros h. reflexivity. Qed.

Lemma readOnly_throw {A : Type} (e : error) : readOnly (throw (A := A) e).
Proof. intros h. reflexivity. Qed.

Lemma readOnly_bind {A C : Type} (m : JS A) (k : A -> JS C) :
  readOnly m -> (forall a, readOnly (k a)) -> readOnly (bind m k).
Proof.
  intros Hm Hk h. unfold bind. specialize (Hm h).
  destruct (m h) as [h1 [e|a]]; simpl in *; subst; [reflexivity | apply Hk].
Qed.

Lemma readOnly_getProp (o : loc) (key : string) : readOnly (getProp o key).
Proof. intros h. unfold getProp. destruct (h !! o) as [[?|?]|]; reflexivity. Qed.

Lemma readOnly_toLowerCase (v : value) : readOnly (call_toLowerCase v).
Proof. destruct v; intros h; reflexivity. Qed.

Lemma readOnly_indexOf (v arg : value) : readOnly (call_indexOf v arg).
Proof. destruct v; intros h; reflexivity. Qed.

#[local] Hint Resolve readOnly_ret readOnly_throw readOnly_getProp
  readOnly_toLowerCase readOnly_indexOf : readonly.
#[local] Hint Extern 2 (readOnly (bind _ _)) =>
  apply readOnly_bind; [|intros ?] : readonly.

Lemma readOnly_filterElems (callback : loc -> JS value) (elems : list loc) :
  (forall x, readOnly (callback x)) -> readOnly (filterElems callback elems).
Proof.
  intros Hcb. induction elems as [|x rest IH]; simpl; auto 8 with readonly.
Qed.

(** *** One step of filterTodos *)

Lemma bind_assoc {A C D : Type} (m : JS A) (f : A -> JS C) (g : C -> JS D)
    (h : list cell) :
  bind (bind m f) g h = bind m (fun a => bind (f a) g) h.
Proof. unfold bind. destruct (m h) as [h1 [e|a]]; reflexivity. Qed.

Lemma bind_ext {A C : Type} (m : JS A) (f g : A -> JS C) (h : list cell) :
  (forall a h', f a h' = g a h') -> bind m f h = bind m g h.
Proof. intros H. unfold bind. destruct (m h) as [h1 [e|a]]; [reflexivity | apply H]. Qed.

Lemma filterTodos_steps (todos filters : loc) (h : list cell) :
  filterTodos todos filters h =
  (filteredTodos <- filterBy filters "name" todos ;;
   filteredTodos <- filterBy filters "company" filteredTodos ;;
   ret filteredTodos) h.
Proof.
  unfold filterTodos, filterBy. rewrite bind_assoc.
  apply bind_ext; intros name h1. apply bind_ext; intros ft h2.
  rewrite bind_assoc. reflexivity.
Qed.

Lemma lowerProp_other (key k : string) (props : gmap string value) :
  k <> key -> lowerProp key props !! k = props !! k.
Proof.
  intros Hne. unfold lowerProp.
  destruct (props !! key) as [[|[|c s]| |]|]; try reflexivity.
  apply lookup_insert_ne. congruence.
Qed.

Lemma lowerProp_falsy (key : string) (props : gmap string value) :
  truthy (propOf props key) = false -> lowerProp key props = props.
Proof.
  unfold propOf, lowerProp.
  destruct (props !! key) as [[|[|c s]| |]|]; try reflexivity. discriminate.
Qed.

(** The step ends in one of three ways: it passes the array on when the
    key is falsy, and otherwise throws or returns a new array.  In each the
    heap is the old one with the specification's [key] lower-cased,
    possibly followed by the new array. *)
Lemma filterBy_cases (filters : loc) (key : string) (ft : loc)
    (h : list cell) (props : gmap string value) :
  h !! filters = Some (CObject props) ->
  let h1 := <[filters := CObject (lowerProp key props)]> h in
  (truthy (propOf props key) = false /\ h1 = h
   /\ filterBy filters key ft h = (h, inr ft))
  \/ (truthy (propOf props key) = true
      /\ (filterBy filters key ft h = (h1, inl TypeError)
          \/ exists kept,
               filterBy filters key ft h
               = ((h1 ++ [CArray kept])%list, inr (length h)))).
Proof.
  intros Hf h1.
  assert (Hid : truthy (propOf props key) = false -> h1 = h).
  { intros Hv. unfold h1. rewrite (lowerProp_falsy _ _ Hv).
    apply list_insert_id, Hf. }
  destruct (truthy (propOf props key)) eqn:Hv.
  2:{ left. split; [reflexivity|]. split; [auto|].
      unfold filterBy, bind, getProp. rewrite Hf. fold (propOf props key).
      rewrite Hv. reflexivity. }
  right. split; [reflexivity|].
  remember (filterBy filters key ft h) as res eqn:Hres.
  unfold filterBy, bind at 1, getProp at 1 in Hres. rewrite Hf in Hres.
  fold (propOf props key) in Hres. rewrite Hv in Hres.
  unfold bind at 1, getProp at 1 in Hres. rewrite Hf in Hres.
  fold (propOf props key) in Hres.
  unfold propOf in Hv, Hres. unfold h1, lowerProp.
  destruct (props !! key) as [[|[|c s]|[]|n]|] eqn:Hk; simpl in Hv;
    try discriminate.
  - (* a non-empty string *)
    simpl in Hres. unfold bind at 1 in Hres. simpl in Hres.
    unfold bind at 1, setProp at 1 in Hres. rewrite Hf in Hres.
    set (h2 := <[filters := CObject (<[key := VString (toLowerCase (c :: s))]> props)]> h)
      in *.
    unfold Array_filter, bind at 1, get in Hres.
    destruct (h2 !! ft) as [[?|elems]|] eqn:Harr; try (left; exact Hres).
    unfold bind at 1 in Hres.
    match type of Hres with context [filterElems ?cb elems h2] =>
      pose proof (readOnly_filterElems cb elems) as Hro end.
    match type of Hro with ?P -> _ =>
      assert (Hcb : P) by (intros x; auto 10 with readonly) end.
    specialize (Hro Hcb h2). clear Hcb.
    match type of Hres with context [filterElems ?cb elems h2] =>
      destruct (filterElems cb elems h2) as [h3 [[]|kept]] end;
      simpl in Hro; subst h3.
    + left. exact Hres.
    + right. exists kept.
      unfold alloc in Hres. unfold h2 in Hres. rewrite length_insert in Hres.
      exact Hres.
  - (* true *)
    left. simpl in Hres. rewrite list_insert_id by exact Hf. exact Hres.
  - (* a truthy number *)
    left. simpl in Hres. rewrite list_insert_id by exact Hf. exact Hres.
Qed.

(** What one step leaves alone. *)
Lemma filterBy_frame (filters : loc) (key : string) (ft : loc)
    (h h' : list cell) (r : error + loc) (props : gmap string value) :
  h !! filters = Some (CObject props) ->
  filterBy filters key ft h = (h', r) ->
  (length h <= length h')%nat
  /\ (forall l, l <> filters -> (l < length h)%nat -> h' !! l = h !! l)
  /\ h' !! filters = Some (CObject (lowerProp key props))
  /\ (forall out, r = inr out ->
        (truthy (propOf props key) = false /\ out = ft)
        \/ (truthy (propOf props key) = true
            /\ (length h <= out /\ out < length h')%nat
            /\ exists kept, h' !! out = Some (CArray kept)))
  /\ (truthy (propOf props key) = false -> h' = h /\ r = inr ft).
Proof.
  intros Hf Hrun.
  pose proof (lookup_lt_Some _ _ _ Hf) as Hlt.
  destruct (filterBy_cases filters key ft h props Hf)
    as [(Hv & Hid & E) | (Hv & [E | [kept E]])];
    rewrite E in Hrun; injection Hrun as <- <-.
  - rewrite <- Hid at 3. rewrite list_lookup_insert_eq by exact Hlt.
    repeat split; auto; try lia.
    intros out [= <-]. left. split; [exact Hv | reflexivity].
  - rewrite length_insert, list_lookup_insert_eq by exact Hlt.
    repeat split; try lia; try congruence.
    intros l Hl _. apply list_lookup_insert_ne. congruence.
  - rewrite length_app, length_insert. simpl.
    repeat split; try lia; try congruence.
    + intros l Hl Hll. rewrite lookup_app_l by (rewrite length_insert; lia).
      apply list_lookup_insert_ne. congruence.
    + rewrite lookup_app_l by (rewrite length_insert; lia).
      apply list_lookup_insert_eq. exact Hlt.
    + intros out [= <-]. right. split; [exact Hv|]. split; [lia|].
      exists kept. apply list_lookup_middle. rewrite length_insert. reflexivity.
Qed.

(** A specification whose [name] and [company] are absent or falsy is not
    looked at any further: whatever else it holds, the call returns the
    array it was given and changes nothing. *)
Lemma filterTodos_ignores_other_keys (h : list cell) (todos filters : loc)
    (props : gmap string value) :
  h !! filters = Some (CObject props) ->
  truthy (propOf props "name") = false ->
  truthy (propOf props "company") = false ->
  filterTodos todos filters h = (h, inr todos).
Proof.
  intros Hf Hn Hc. unfold filterTodos, bind, getProp. rewrite Hf.
  fold (propOf props "name"). rewrite Hn. simpl. rewrite Hf.
  fold (propOf props "company"). rewrite Hc. reflexivity.
Qed.

(** The two steps together. *)
Lemma filterTodos_run (h h' : list cell) (todos filters : loc)
    (props : gmap string value) (r : error + loc) :
  h !! filters = Some (CObject props) ->
  filterTodos todos filters h = (h', r) ->
  (forall l, l <> filters -> (l < length h)%nat -> h' !! l = h !! l)
  /\ (exists props', h' !! filters = Some (CObject props')
        /\ forall key, key <> "name" -> key <> "company" ->
                       props' !! key = props !! key)
  /\ (forall out, r = inr out ->
        h' !! filters
        = Some (CObject (lowerProp "company" (lowerProp "name" props)))
        /\ (truthy (propOf props "name") = true
            \/ truthy (propOf props "company") = true ->
            (length h <= out /\ out < length h')%nat
            /\ exists kept, h' !! out = Some (CArray kept))).
Proof.
  intros Hf Hrun. rewrite filterTodos_steps in Hrun. unfold bind at 1 in Hrun.
  destruct (filterBy filters "name" todos h) as [h1 [e|ft]] eqn:E1.
  - injection Hrun as <- <-.
    destruct (filterBy_frame _ _ _ _ _ _ _ Hf E1) as (_ & Hfr & Hp & _ & _).
    split; [exact Hfr|]. split.
    + eexists. split; [exact Hp|]. intros key Hk _. apply lowerProp_other, Hk.
    + intros out [=].
  - unfold bind at 1 in Hrun.
    destruct (filterBy_frame _ _ _ _ _ _ _ Hf E1)
      as (Hlen1 & Hfr1 & Hp1 & Hout1 & _).
    destruct (filterBy filters "company" ft h1) as [h2 [e|ft2]] eqn:E2;
      destruct (filterBy_frame _ _ _ _ _ _ _ Hp1 E2)
        as (Hlen2 & Hfr2 & Hp2 & Hout2 & Hfalsy2);
      injection Hrun as <- <-.
    + split; [|split].
      * intros l Hl Hlt. rewrite Hfr2 by (auto; lia). auto.
      * eexists. split; [exact Hp2|]. intros key Hn Hc.
        rewrite !lowerProp_other by assumption. reflexivity.
      * intros out [=].
    + split; [|split].
      * intros l Hl Hlt. rewrite Hfr2 by (auto; lia). auto.
      * eexists. split; [exact Hp2|]. intros key Hn Hc.
        rewrite !lowerProp_other by assumption. reflexivity.
      * intros out [= <-]. split; [exact Hp2|]. intros Htruthy.
        destruct (Hout1 ft eq_refl) as [[Hn ->] | (Hn & Hfresh1 & kept1 & Hk1)];
          destruct (Hout2 ft2 eq_refl) as [[Hc ->] | (Hc & Hfresh2 & kept2 & Hk2)].
        -- rewrite (lowerProp_falsy _ _ Hn) in Hc. destruct Htruthy; congruence.
        -- split; [lia | eauto].
        -- destruct (Hfalsy2 Hc) as [-> _]. split; [lia | eauto].
        -- split; [lia | eauto].
Qed.

(** *** filterTodos and its arguments *)

(** C9, as the code has it.  A call whose second argument is an object
    changes no cell but that object: the input array holds the same
    records as before, and every object other than the specification is as
    before.  Of the specification only [name] and [company] can change, and
    when the call returns each holds what [toLowerCase] gave for the
    non-empty text it held.  When [name] or [company] is truthy and the
    call returns, what it returns is an array the call has allocated; for a
    specification with no truthy entry the call returns the input array
    itself and changes nothing.  Nothing is said of what is returned for a
    specification whose truthy entries are all under other keys. *)
Theorem filterTodos_frame (h h' : list cell) (todos filters : loc)
    (props : gmap string value) (r : error + loc) :
  h !! filters = Some (CObject props) ->
  filterTodos todos filters h = (h', r) ->
  (forall l, l <> filters -> (l < length h)%nat -> h' !! l = h !! l)
  /\ (forall elems, h !! todos = Some (CArray elems) ->
                    h' !! todos = Some (CArray elems))
  /\ (exists props', h' !! filters = Some (CObject props')
        /\ forall key, key <> "name" -> key <> "company" ->
                       props' !! key = props !! key)
  /\ (forall out, r = inr out ->
        h' !! filters
        = Some (CObject (lowerProp "company" (lowerProp "name" props)))
        /\ (truthy (propOf props "name") = true
            \/ truthy (propOf props "company") = true ->
            (length h <= out /\ out < length h')%nat
            /\ exists kept, h' !! out = Some (CArray kept)))
  /\ ((forall key, truthy (propOf props key) = false) ->
      h' = h /\ r = inr todos).
Proof.
  intros Hf Hrun.
  destruct (filterTodos_run h h' todos filters props r Hf Hrun)
    as (Hframe & Hspec & Hret).
  split; [exact Hframe|]. split; [|split; [exact Hspec|split; [exact Hret|]]].
  - intros elems Harr. rewrite Hframe; [exact Harr | congruence |].
    exact (lookup_lt_Some _ _ _ Harr).
  - intros Hfalsy.
    rewrite (filterTodos_ignores_other_keys h todos filters props Hf
               (Hfalsy "name") (Hfalsy "company")) in Hrun.
    injection Hrun as <- <-. split; reflexivity.
Qed.

(** *** The refinement the tests ask for *)

(** C2, where the code departs from it: with owner "i" and body "M" over
    the three sample records, filterTodos hands back the array it was
    given, all three records in their order, instead of the Chris record
    alone. *)
Theorem filterTodos_owner_body_keeps_all :
  let filters := <["owner" := VString (js "i")]>
                   (<["body" := VString (js "M")]> ∅) in
  let h := (testTodos_heap ++ [CObject filters])%list in
  filterTodos testTodos 4%nat h = (h, inr testTodos)
  /\ arrayField h testTodos "owner"
     = Some [VString (js "Chris"); VString (js "Pat"); VString (js "Jamie")].
Proof.
  intros filters h. split; [|vm_compute; reflexivity].
  apply (filterTodos_ignores_other_keys h testTodos 4%nat filters);
    vm_compute; reflexivity.
Qed.

(** C3, where the code departs from it: with a limit, 1 as in the test or
    any other number, over the three sample records, filterTodos hands back
    the array it was given, three records long, instead of its first record
    alone. *)
Theorem filterTodos_limit_keeps_all (limit : number) :
  let filters := <["limit" := VNumber limit]> ∅ in
  let h := (testTodos_heap ++ [CObject filters])%list in
  filterTodos testTodos 4%nat h = (h, inr testTodos)
  /\ length <$> arrayRecords h testTodos = Some 3%nat.
Proof.
  intros filters h. split; [|vm_compute; reflexivity].
  apply (filterTodos_ignores_other_keys h testTodos 4%nat filters);
    vm_compute; reflexivity.
Qed.

(** C4, where the code departs from it: with order "body" over the three
    sample records, filterTodos hands back the array it was given, the
    bodies still in the order "UMM is cool", "IBM is not cool",
    "Frogs, are cool", instead of sorted. *)
Theorem filterTodos_order_keeps_order :
  let filters := <["order" := VString (js "body")]> ∅ in
  let h := (testTodos_heap ++ [CObject filters])%list in
  filterTodos testTodos 4%nat h = (h, inr testTodos)
  /\ arrayField h testTodos "body"
     = Some [VString (js "UMM is cool"); VString (js "IBM is not cool");
             VString (js "Frogs, are cool")].
Proof.
  intros filters h. split; [|vm_compute; reflexivity].
  apply (filterTodos_ignores_other_keys h testTodos 4%nat filters);
    vm_compute; reflexivity.
Qed.

End General.

(** *** On the sample records *)

#[local] Existing Instance exampleBuiltins.

Lemma filterTodos_frame_witness :
  let spec := <["name" := VString (js "CH")]> ∅ in
  let h := (namedTodos_heap ++ [CObject spec])%list in
  exists h',
    filterTodos namedTodos 3%nat h = (h', inr 4%nat)
    /\ h' !! 0%nat = h !! 0%nat
    /\ h' !! 1%nat = h !! 1%nat
    /\ h' !! namedTodos = Some (CArray [0%nat; 1%nat])
    /\ h' !! 3%nat = Some (CObject (<["name" := VString (js "ch")]> ∅))
    /\ (length h <= 4 /\ 4 < length h')%nat
    /\ exists kept, h' !! 4%nat = Some (CArray kept).
Proof.
  intros spec h.
  destruct (filterTodos namedTodos 3%nat h) as [h' r] eqn:Hrun.
  assert (Hr : r = inr 4%nat).
  { apply (f_equal snd) in Hrun. vm_compute in Hrun. symmetry. exact Hrun. }
  subst r.
  destruct (filterTodos_frame h h' namedTodos 3%nat spec (inr 4%nat)
              eq_refl Hrun)
    as (Hframe & Harr & _ & Hret & _).
  destruct (Hret 4%nat eq_refl) as [Hspec Hfresh].
  exists h'. split; [reflexivity|].
  split; [apply Hframe; [discriminate | vm_compute; lia]|].
  split; [apply Hframe; [discriminate | vm_compute; lia]|].
  split; [apply Harr; reflexivity|].
  split; [exact Hspec|].
  apply Hfresh. left. reflexivity.
Defined.

(** C9, as the claim has it, fails twice over: a specification with an
    upper-case [name] is overwritten in place, and with an empty
    specification the array returned is the input array, not a new one. *)
Lemma filterTodos_not_pure :
  ~ pureCall (namedTodos_heap ++ [CObject (<["name" := VString (js "CH")]> ∅)])%list
      namedTodos 3%nat
  /\ ~ pureCall (namedTodos_heap ++ [CObject ∅])%list namedTodos 3%nat.
Proof.
  split.
  - unfold pureCall.
    destruct (filterTodos namedTodos 3%nat _) as [h' r] eqn:Hrun.
    intros (_ & Hspec & _).
    apply (f_equal fst) in Hrun. simpl in Hrun. subst h'.
    apply (f_equal (fun c => match c with
                             | Some (CObject props) => props !! "name"
                             | _ => None
                             end)) in Hspec.
    vm_compute in Hspec. discriminate.
  - unfold pureCall.
    destruct (filterTodos namedTodos 3%nat _) as [h' r] eqn:Hrun.
    intros (_ & _ & Hnew).
    apply (f_equal snd) in Hrun. simpl in Hrun. subst r.
    specialize (Hnew namedTodos eq_refl). unfold namedTodos_heap, namedTodos in Hnew.
    simpl in Hnew. lia.
Qed.

(** On records that do have a [name], the filter keeps those whose name
    contains the text, whatever the case of either. *)
Lemma filterTodos_by_name :
  let h := (namedTodos_heap ++ [CObject (<["name" := VString (js "CH")]> ∅)])%list in
  snd (filterTodos namedTodos 3%nat h) = inr 4%nat
  /\ arrayField (fst (filterTodos namedTodos 3%nat h)) 4%nat "name"
     = Some [VString (js "Chris")].
Proof. split; vm_compute; reflexivity. Qed.

(** The records of the tests have no [name]: asking for one is a
    TypeError, raised after the specification has been overwritten. *)
Lemma filterTodos_name_on_testTodos :
  let h := (testTodos_heap ++ [CObject (<["name" := VString (js "I")]> ∅)])%list in
  snd (filterTodos testTodos 4%nat h) = inl TypeError
  /\ match fst (filterTodos testTodos 4%nat h) !! 4%nat with
     | Some (CObject props) => props !! "name" = Some (VString (js "i"))
     | _ => False
     end.
Proof. split; vm_compute; reflexivity. Qed.

End ClientSpec.

(** ** The server: deleting, inserting and listing *)
Module ServerMore.
Import StateExn Server Listing ServerSpec.

(** *** deleteOne *)

Lemma removeFirst_none (f : Bson) (coll : list (ObjectId * Todo)) :
  (forall d, In d coll -> matches f d = false) -> removeFirst f coll = (coll, 0).
Proof.
  induction coll as [|d coll IH]; intros H; simpl; [reflexivity|].
  rewrite (H d) by (left; reflexivity).
  rewrite IH by (intros; apply H; right; assumption). reflexivity.
Qed.

Lemma removeFirst_some (f : Bson) (coll : list (ObjectId * Todo)) :
  (exists d, In d coll /\ matches f d = true) ->
  exists l1 d l2,
    coll = (l1 ++ d :: l2)%list /\ matches f d = true
    /\ (forall x, In x l1 -> matches f x = false)
    /\ removeFirst f coll = ((l1 ++ l2)%list, 1).
Proof.
  induction coll as [|d coll IH]; intros (x & Hin & Hx); [destruct Hin|].
  simpl. destruct (matches f d) eqn:Hd.
  - exists [], d, coll. repeat split; [exact Hd | intros ? []].
  - destruct Hin as [-> | Hin]; [congruence|].
    destruct IH as (l1 & y & l2 & -> & Hy & Hl1 & ->); [eauto|].
    exists (d :: l1), y, l2. repeat split; [exact Hy|].
    intros z [<- | Hz]; auto.
Qed.

(** What deleteTodo does with a legal identifier, in terms of deleteOne. *)
Lemma deleteTodo_run (w : World) (oid : ObjectId) :
  new_ObjectId (pathParam_id (ctx w)) = inr oid ->
  deleteTodo w =
  let '(coll', deletedCount) :=
    removeFirst (Filters_eq "_id" (BsonObjectId oid)) (todoCollection w) in
  let answer (s : HttpStatus) :=
    {| ctx := {| pathParam_id := pathParam_id (ctx w);
                 queryString := queryString (ctx w);
                 requestBody := requestBody (ctx w);
                 response_json := response_json (ctx w);
                 response_status := Some s |};
       todoCollection := coll'; nextObjectId := nextObjectId w |} in
  if negb (Z.eqb deletedCount 1)
  then (answer NOT_FOUND,
        inl (NotFoundResponse (unableToDelete (pathParam_id (ctx w)))))
  else (answer OK, inr tt).
Proof.
  intros Hoid. run_handler. rewrite Hoid.
  destruct (removeFirst _ (todoCollection w)) as [coll' n].
  destruct (negb (Z.eqb n 1)); reflexivity.
Qed.

(** X1: deleting an identifier that is in the collection removes the
    first document carrying it and no other, answers OK, and leaves the
    JSON of the response and the identifier supply alone. *)
Theorem deleteTodo_removes_first_match (w : World) (oid : ObjectId) :
  new_ObjectId (pathParam_id (ctx w)) = inr oid ->
  (exists d, In d (todoCollection w) /\ fst d = oid) ->
  exists l1 d l2 w',
    todoCollection w = (l1 ++ d :: l2)%list
    /\ fst d = oid /\ (forall x, In x l1 -> fst x <> oid)
    /\ deleteTodo w = (w', inr tt)
    /\ todoCollection w' = (l1 ++ l2)%list
    /\ response_status (ctx w') = Some OK
    /\ response_json (ctx w') = response_json (ctx w)
    /\ nextObjectId w' = nextObjectId w.
Proof.
  intros Hoid (x & Hin & Hx).
  destruct (removeFirst_some (Filters_eq "_id" (BsonObjectId oid)) (todoCollection w))
    as (l1 & d & l2 & Hcoll & Hd & Hl1 & Hrm).
  { exists x. split; [exact Hin|]. rewrite matches_eq_id. apply N.eqb_eq, Hx. }
  rewrite matches_eq_id in Hd. apply N.eqb_eq in Hd.
  exists l1, d, l2. eexists. split; [exact Hcoll|]. split; [exact Hd|]. split.
  { intros y Hy. apply N.eqb_neq. rewrite <- matches_eq_id. apply Hl1, Hy. }
  split; [rewrite (deleteTodo_run w oid Hoid), Hrm; reflexivity|].
  repeat split.
Qed.

Lemma deleteTodo_removes_first_match_witness :
  exists w',
    deleteTodo (world (request "58909b5b0e0c68c320a1f581" [] None)) = (w', inr tt)
    /\ map fst (todoCollection w') = [1%N; 2%N; 3%N]
    /\ response_status (ctx w') = Some OK.
Proof.
  destruct (deleteTodo_removes_first_match
              (world (request "58909b5b0e0c68c320a1f581" [] None)) frysId)
    as (l1 & d & l2 & w' & Hcoll & Hd & Hl1 & Hrun & Hcoll' & Hstatus & _).
  - vm_compute. reflexivity.
  - eexists. split; [do 3 right; left; reflexivity | reflexivity].
  - exists w'. split; [exact Hrun|]. split; [|exact Hstatus].
    pose proof (f_equal fst Hrun) as Hw. vm_compute in Hw. subst w'. reflexivity.
Defined.

(** X2: deleting a legal identifier that no document carries throws a
    NotFoundResponse whose message quotes the identifier, after the status
    NOT_FOUND has been written; the collection is as before. *)
Theorem deleteTodo_absent (w : World) (oid : ObjectId) :
  new_ObjectId (pathParam_id (ctx w)) = inr oid ->
  (forall d, In d (todoCollection w) -> fst d <> oid) ->
  exists w',
    deleteTodo w
    = (w', inl (NotFoundResponse (unableToDelete (pathParam_id (ctx w)))))
    /\ responseCode (NotFoundResponse (unableToDelete (pathParam_id (ctx w))))
       = Some 404
    /\ response_status (ctx w') = Some NOT_FOUND
    /\ todoCollection w' = todoCollection w
    /\ nextObjectId w' = nextObjectId w.
Proof.
  intros Hoid Hnone. eexists. split.
  - rewrite (deleteTodo_run w oid Hoid), removeFirst_none; [reflexivity|].
    intros d Hd. rewrite matches_eq_id. apply N.eqb_neq, Hnone, Hd.
  - repeat split.
Qed.

Lemma deleteTodo_absent_witness :
  exists w',
    deleteTodo (world (request "588935f5c668650dc77df581" [] None))
    = (w', inl (NotFoundResponse
                  "Was unable to delete ID 588935f5c668650dc77df581; perhaps illegal ID or an ID for an item not in the system?"))
    /\ response_status (ctx w') = Some NOT_FOUND
    /\ todoCollection w' = testCollection.
Proof.
  destruct (deleteTodo_absent
              (world (request "588935f5c668650dc77df581" [] None))
              27400558520738248521695491457%N)
    as (w' & Hrun & _ & Hstatus & Hcoll & _).
  - vm_compute. reflexivity.
  - intros d [<- | [<- | [<- | [<- | []]]]]; vm_compute; discriminate.
  - exists w'. split; [exact Hrun|]. split; [exact Hstatus | exact Hcoll].
Defined.

Lemma removeFirst_cases (f : Bson) (coll : list (ObjectId * Todo)) :
  ((forall d, In d coll -> matches f d = false) /\ removeFirst f coll = (coll, 0))
  \/ (exists l1 d l2,
        coll = (l1 ++ d :: l2)%list /\ matches f d = true
        /\ (forall x, In x l1 -> matches f x = false)
        /\ removeFirst f coll = ((l1 ++ l2)%list, 1)).
Proof.
  destruct (existsb (matches f) coll) eqn:He.
  - right. apply removeFirst_some. apply existsb_exists in He. exact He.
  - left. assert (H : forall d, In d coll -> matches f d = false).
    { intros d Hd. destruct (matches f d) eqn:Hm; [|reflexivity].
      assert (existsb (matches f) coll = true) by (apply existsb_exists; eauto).
      congruence. }
    split; [exact H | apply removeFirst_none, H].
Qed.

Lemma NoDup_ids_removed (l1 l2 : list (ObjectId * Todo)) (d : ObjectId * Todo) :
  List.NoDup (map fst (l1 ++ d :: l2)) ->
  forall x, In x (l1 ++ l2) -> fst x <> fst d.
Proof.
  rewrite map_app. simpl. intros Hnd x Hx Heq.
  apply List.NoDup_remove_2 in Hnd. apply Hnd.
  rewrite <- map_app, <- Heq. apply in_map, Hx.
Qed.

(** X3: when no two documents share an identifier, a todo that has been
    deleted is gone: deleting it again throws the NotFoundResponse and
    changes nothing, and looking it up throws the NotFoundResponse of
    getTodo. *)
Theorem deleteTodo_twice (w w' : World) :
  List.NoDup (map fst (todoCollection w)) ->
  deleteTodo w = (w', inr tt) ->
  (exists w'',
     deleteTodo w'
     = (w'', inl (NotFoundResponse (unableToDelete (pathParam_id (ctx w)))))
     /\ todoCollection w'' = todoCollection w')
  /\ getTodo w' = (w', inl (NotFoundResponse "The requested todo was not found")).
Proof.
  intros Hnd Hrun.
  destruct (new_ObjectId (pathParam_id (ctx w))) as [e|oid] eqn:Hoid.
  { revert Hrun. run_handler. rewrite Hoid. discriminate. }
  rewrite (deleteTodo_run w oid Hoid) in Hrun.
  destruct (removeFirst_cases (Filters_eq "_id" (BsonObjectId oid)) (todoCollection w))
    as [[_ Hrm] | (l1 & d & l2 & Hcoll & Hd & _ & Hrm)];
    rewrite Hrm in Hrun; simpl in Hrun; [discriminate|].
  injection Hrun as <-.
  rewrite matches_eq_id in Hd. apply N.eqb_eq in Hd. subst oid.
  rewrite Hcoll in Hnd.
  assert (Hgone : forall x, In x (l1 ++ l2) ->
                    matches (Filters_eq "_id" (BsonObjectId (fst d))) x = false).
  { intros x Hx. rewrite matches_eq_id. apply N.eqb_neq.
    apply (NoDup_ids_removed l1 l2 d Hnd x Hx). }
  split.
  - eexists. split.
    + rewrite (deleteTodo_run _ (fst d)) by exact Hoid.
      simpl. rewrite (removeFirst_none _ _ Hgone). reflexivity.
    + reflexivity.
  - run_handler. simpl. rewrite Hoid. simpl.
    rewrite (head_find_None _ _ Hgone). reflexivity.
Qed.

Lemma deleteTodo_twice_witness :
  exists w' w'',
    deleteTodo (world (request "58909b5b0e0c68c320a1f581" [] None)) = (w', inr tt)
    /\ deleteTodo w'
       = (w'', inl (NotFoundResponse
                     (unableToDelete "58909b5b0e0c68c320a1f581")))
    /\ getTodo w' = (w', inl (NotFoundResponse "The requested todo was not found")).
Proof.
  eexists.
  assert (Hrun : deleteTodo (world (request "58909b5b0e0c68c320a1f581" [] None))
                 = (_, inr tt)) by (vm_compute; reflexivity).
  assert (Hnd : List.NoDup
                  (map fst (todoCollection
                              (world (request "58909b5b0e0c68c320a1f581" [] None))))).
  { unfold world, testCollection, frysId. simpl.
    repeat (apply List.NoDup_cons; [simpl; lia|]). apply List.NoDup_nil. }
  destruct (deleteTodo_twice _ _ Hnd Hrun) as ((w'' & Hagain & _) & Hget).
  exists w''. split; [exact Hrun|]. split; [exact Hagain | exact Hget].
Defined.

(** *** Identifiers as hex strings *)

Lemma hexDigit_value (d : N) : (d < 16)%N -> hexDigitValue (hexDigit d) = Some d.
Proof.
  intros Hd. destruct d as [|p]; [reflexivity|].
  do 4 (destruct p as [p|p|]; try reflexivity); exfalso; lia.
Qed.

Lemma toHex_length (n : nat) (v : N) (acc : string) :
  String.length (toHex n v acc) = (n + String.length acc)%nat.
Proof.
  revert v acc. induction n as [|n IH]; intros v acc; simpl; [reflexivity|].
  rewrite IH. simpl. lia.
Qed.

Lemma toHex_digits (n : nat) (v : N) (acc : string) :
  forallb (fun c => bool_decide (is_Some (hexDigitValue c)))
          (list_ascii_of_string acc) = true ->
  forallb (fun c => bool_decide (is_Some (hexDigitValue c)))
          (list_ascii_of_string (toHex n v acc)) = true.
Proof.
  revert v acc. induction n as [|n IH]; intros v acc Hacc; simpl; [exact Hacc|].
  apply IH. simpl. rewrite Hacc, andb_true_r. apply bool_decide_eq_true.
  rewrite hexDigit_value by (apply N.mod_upper_bound; discriminate). eauto.
Qed.

Lemma parse_toHex (n : nat) (v a : N) (acc : string) :
  parseHexString (toHex n v acc) a
  = parseHexString acc (a * 16 ^ N.of_nat n + v mod 16 ^ N.of_nat n)%N.
Proof.
  revert v a acc. induction n as [|n IH]; intros v a acc.
  - simpl. rewrite N.mod_1_r, N.mul_1_r, N.add_0_r. reflexivity.
  - cbn [toHex]. rewrite IH. cbn [parseHexString].
    rewrite hexDigit_value by (apply N.mod_upper_bound; discriminate).
    f_equal. rewrite Nat2N.inj_succ, N.pow_succ_r'.
    rewrite (N.Div0.mod_mul_r v 16 (16 ^ N.of_nat n)). lia.
Qed.

(** Every identifier below 16^24 is read back from its hex string. *)
Lemma new_ObjectId_toHexString (o : ObjectId) :
  (o < 16 ^ 24)%N -> new_ObjectId (toHexString o) = inr o.
Proof.
  intros Ho. unfold new_ObjectId, ObjectId_isValid, toHexString.
  rewrite toHex_length, toHex_digits by reflexivity. simpl Nat.eqb. cbn [andb].
  rewrite (parse_toHex 24 o 0 ""). cbn [parseHexString].
  rewrite N.mul_0_l, N.add_0_l. change (N.of_nat 24) with 24%N.
  rewrite N.mod_small by exact Ho. reflexivity.
Qed.

(** *** Inserting *)

(** The four checks let a candidate through exactly when it is legal. *)
Lemma runChecks_legal (t : Todo) :
  (exists t', runChecks addNewTodo_checks t = inr t') <-> legalTodo t.
Proof.
  unfold legalTodo. destruct t as [i o s b c]. cbn -[String_matches In].
  destruct b as [[|b0 b]|]; cbn -[String_matches In].
  1,3: split; [intros [t' H]; discriminate
              | intros ((x & Hx & Hne) & _); congruence].
  destruct o as [[|o0 o]|]; cbn -[String_matches In].
  1,3: split; [intros [t' H]; discriminate
              | intros (_ & (x & Hx & Hne) & _); congruence].
  destruct s; cbn -[String_matches In].
  2: split; [intros [t' H]; discriminate | intros (_ & _ & H & _); discriminate].
  destruct c as [c|]; cbn -[String_matches In].
  2: split; [intros [t' H]; discriminate
            | intros (_ & _ & _ & (x & Hx & _)); discriminate].
  destruct (String_matches c CAT_REGEX) eqn:Hc.
  - apply String_matches_In in Hc. split; [|eauto].
    intros _. repeat split; eauto; eexists; (split; [reflexivity | discriminate]).
  - split; [intros [t' H]; discriminate|].
    intros (_ & _ & _ & (x & [= <-] & Hx)).
    apply String_matches_In in Hx. congruence.
Qed.

Lemma runChecks_returns_candidate (t t' : Todo) :
  runChecks addNewTodo_checks t = inr t' -> t' = t.
Proof.
  unfold addNewTodo_checks. simpl.
  repeat match goal with
         | |- context [match ?x with _ => _ end] => destruct x
         end; congruence.
Qed.

(** X4: addNewTodo returns normally exactly when the body deserialises to
    a candidate with a non-empty body, a non-empty owner, status true and a
    category of the enumeration; then the candidate is appended to the
    collection under the next identifier.  When it throws instead, the
    world is as before: nothing is inserted and no response is written. *)
Theorem addNewTodo_accepts_iff (w : World) :
  ((exists w', addNewTodo w = (w', inr tt))
   <-> exists t, requestBody (ctx w) = Some t /\ legalTodo t)
  /\ (forall w' t, addNewTodo w = (w', inr tt) -> requestBody (ctx w) = Some t ->
        todoCollection w' = (todoCollection w ++ [(nextObjectId w, t)])%list)
  /\ (forall w' e, addNewTodo w = (w', inl e) -> w' = w).
Proof.
  destruct (requestBody (ctx w)) as [t|] eqn:Hreq.
  - rewrite (addNewTodo_run w t Hreq).
    destruct (runChecks addNewTodo_checks t) as [e|t'] eqn:Hchecks.
    + split; [|split].
      * split; [intros [w' H]; discriminate|].
        intros (t0 & [= <-] & Hlegal). apply runChecks_legal in Hlegal as [t' H].
        congruence.
      * intros w' t0 [=].
      * intros w' e0 [= <- _]. reflexivity.
    + pose proof (runChecks_returns_candidate _ _ Hchecks) as ->.
      split; [|split].
      * split; [|eauto]. intros _. exists t. split; [reflexivity|].
        apply runChecks_legal. eauto.
      * intros w' t0 [= <-] [= <-]. reflexivity.
      * intros w' e [=].
  - assert (Hrun : addNewTodo w
                   = (w, inl (ValidationException "DESERIALIZATION_FAILED"))).
    { run_handler. unfold BodyValidator_get. rewrite Hreq. reflexivity. }
    rewrite Hrun. split; [|split].
    + split; [intros [w' H]; discriminate | intros (t & H & _); discriminate].
    + intros w' t [=].
    + intros w' e [= <- _]. reflexivity.
Qed.

Lemma addNewTodo_accepts_iff_witness :
  let legal := {| _id := None; owner := Some "Jerry"; status := true;
                  body := Some "cool stuff"; category := Some "homework" |} in
  let illegal := {| _id := None; owner := Some "Jerry"; status := true;
                    body := Some "cool stuff"; category := Some "real category" |} in
  (exists w', addNewTodo (world (request "" [] (Some legal))) = (w', inr tt)
              /\ todoCollection w' = (testCollection ++ [(4%N, legal)])%list)
  /\ fst (addNewTodo (world (request "" [] (Some illegal))))
     = world (request "" [] (Some illegal)).
Proof.
  intros legal illegal. split.
  - destruct (addNewTodo_accepts_iff (world (request "" [] (Some legal))))
      as ([_ Hacc] & Hcoll & _).
    destruct Hacc as [w' Hrun].
    { exists legal. split; [reflexivity|]. unfold legalTodo, legal. simpl.
      repeat split; try (eexists; split; [reflexivity|]); try discriminate.
      right. left. reflexivity. }
    exists w'. split; [exact Hrun|]. apply (Hcoll w' legal Hrun eq_refl).
  - destruct (addNewTodo_accepts_iff (world (request "" [] (Some illegal))))
      as (_ & _ & Hfail).
    apply (Hfail _ (ValidationException "Todo must have a legal user role")).
    vm_compute. reflexivity.
Defined.

Lemma head_find_app_last (f : Bson) (coll : list (ObjectId * Todo))
    (d : ObjectId * Todo) :
  (forall x, In x coll -> matches f x = false) -> matches f d = true ->
  head (find f (coll ++ [d])) = Some d.
Proof.
  intros Hnone Hd. unfold find. induction coll as [|x coll IH]; simpl.
  - rewrite Hd. reflexivity.
  - rewrite (Hnone x) by (left; reflexivity).
    apply IH. intros; apply Hnone; right; assumption.
Qed.

(** X5: insert, then look up.  When the next identifier of the store is
    below 16^24 and not yet in the collection, a legal candidate is
    inserted, the response names an identifier, and a getTodo request for
    that identifier answers OK with the candidate's owner, status, body and
    category under that identifier. *)
Theorem addNewTodo_then_getTodo (w : World) (t : Todo) :
  requestBody (ctx w) = Some t ->
  legalTodo t ->
  (nextObjectId w < 16 ^ 24)%N ->
  (forall d, In d (todoCollection w) -> fst d <> nextObjectId w) ->
  exists w' id w'',
    addNewTodo w = (w', inr tt)
    /\ response_json (ctx w') = Some (JsonMap [("id", id)])
    /\ response_status (ctx w') = Some CREATED
    /\ getTodo (nextRequest (request id [] None) w') = (w'', inr tt)
    /\ response_json (ctx w'')
       = Some (JsonTodo {| _id := Some id; owner := owner t; status := status t;
                           body := body t; category := category t |})
    /\ response_status (ctx w'') = Some OK.
Proof.
  intros Hreq Hlegal Hsmall Hfresh.
  apply runChecks_legal in Hlegal as [t' Hchecks].
  pose proof (runChecks_returns_candidate _ _ Hchecks) as ->.
  eexists. exists (toHexString (nextObjectId w)). eexists.
  split; [rewrite (addNewTodo_run w t Hreq), Hchecks; reflexivity|].
  split; [reflexivity|]. split; [reflexivity|].
  split.
  { run_handler. unfold nextRequest, request.
    cbn [ctx todoCollection nextObjectId pathParam_id].
    rewrite (new_ObjectId_toHexString _ Hsmall).
    rewrite (head_find_app_last _ _ (nextObjectId w, t));
      [reflexivity | |].
    - intros x Hx. rewrite matches_eq_id. apply N.eqb_neq, Hfresh, Hx.
    - rewrite matches_eq_id. apply N.eqb_refl. }
  split; reflexivity.
Qed.

Lemma addNewTodo_then_getTodo_witness :
  let t := {| _id := None; owner := Some "Jerry"; status := true;
              body := Some "cool stuff"; category := Some "homework" |} in
  exists w' w'',
    addNewTodo (world (request "" [] (Some t))) = (w', inr tt)
    /\ getTodo (nextRequest (request "000000000000000000000004" [] None) w')
       = (w'', inr tt)
    /\ response_json (ctx w'')
       = Some (JsonTodo {| _id := Some "000000000000000000000004";
                           owner := Some "Jerry"; status := true;
                           body := Some "cool stuff";
                           category := Some "homework" |}).
Proof.
  intros t.
  destruct (addNewTodo_then_getTodo (world (request "" [] (Some t))) t)
    as (w' & id & w'' & Hadd & Hid & _ & Hget & Hjson & _).
  - reflexivity.
  - unfold legalTodo, t. simpl.
    repeat split; try (eexists; split; [reflexivity|]); try discriminate.
    right. left. reflexivity.
  - vm_compute. reflexivity.
  - intros d [<- | [<- | [<- | [<- | []]]]]; vm_compute; discriminate.
  - assert (Hw : w' = fst (addNewTodo (world (request "" [] (Some t)))))
      by (rewrite Hadd; reflexivity).
    assert (id = "000000000000000000000004") as ->.
    { rewrite Hw in Hid. vm_compute in Hid. congruence. }
    exists w', w''. split; [exact Hadd|]. split; [exact Hget | exact Hjson].
Defined.

(** *** Listing *)

(** X6: whatever order the store gives the documents it has found, as
    long as it gives back those documents, getTodos never throws: it
    answers OK with the todos of exactly the documents of the collection
    that pass the constructed filter, each once, and leaves the collection
    as it was. *)
Theorem getTodos_lists_matches
    (sortDocuments : Sort -> list (ObjectId * Todo) -> list (ObjectId * Todo))
    (w : World) :
  (forall order docs, sortDocuments order docs ≡ₚ docs) ->
  exists f docs w',
    constructFilter (ctx w) = inr f
    /\ getTodos sortDocuments w = (w', inr tt)
    /\ response_json (ctx w') = Some (JsonTodoList (map toTodo docs))
    /\ docs ≡ₚ find f (todoCollection w)
    /\ (forall d, In d docs <-> In d (todoCollection w) /\ matches f d = true)
    /\ response_status (ctx w') = Some OK
    /\ todoCollection w' = todoCollection w.
Proof.
  intros Hperm. pose proof (constructFilter_eq (ctx w)) as Hf.
  eexists. eexists. eexists. split; [exact Hf|].
  split; [unfold getTodos; run_handler; rewrite Hf; reflexivity|].
  split; [reflexivity|]. split; [apply Hperm|]. split; [|split; reflexivity].
  intros d. unfold find. rewrite <- filter_In. split.
  - apply Permutation_in, Hperm.
  - apply Permutation_in. symmetry. apply Hperm.
Qed.

Lemma getTodos_lists_matches_witness :
  exists docs w',
    getTodos (fun _ docs => docs) (world (request "" [("owner", "R")] None))
    = (w', inr tt)
    /\ response_json (ctx w') = Some (JsonTodoList (map toTodo docs))
    /\ (forall d, In d docs <->
                  In d testCollection
                  /\ matches (Filters_and
                                [Filters_regex "owner"
                                   (Pattern_compile (Pattern_quote "R")
                                      CASE_INSENSITIVE)]) d = true)
    /\ response_status (ctx w') = Some OK.
Proof.
  destruct (getTodos_lists_matches (fun _ docs => docs)
              (world (request "" [("owner", "R")] None)))
    as (f & docs & w' & Hf & Hrun & Hjson & _ & Hin & Hstatus & _).
  - intros order docs. reflexivity.
  - vm_compute in Hf. injection Hf as <-.
    exists docs, w'. repeat split; try assumption; apply Hin; assumption.
Defined.

(** The same request on the collection of the tests: Jerry, Rod and Fry
    have an r or an R in their owner, Swan has not. *)
Lemma getTodos_owner_R :
  exists w',
    getTodos (fun _ docs => docs) (world (request "" [("owner", "R")] None))
    = (w', inr tt)
    /\ match response_json (ctx w') with
       | Some (JsonTodoList ts) =>
           map owner ts = [Some "Jerry"; Some "Rod"; Some "Fry"]
       | _ => False
       end.
Proof. eexists. split; vm_compute; reflexivity. Qed.

(** *** What the filter depends on *)

(** X7: the filter is decided by the first value of each of the four
    keys: two requests that agree on those build the same filter, whatever
    else their query strings hold (other keys such as sortby or limit,
    later repetitions of a key, the order of the pairs). *)
Theorem constructFilter_first_values (c1 c2 : Context) :
  (forall key, In key filterKeys -> queryParam c1 key = queryParam c2 key) ->
  constructFilter c1 = constructFilter c2.
Proof.
  intros H. rewrite !constructFilter_eq. unfold regexFor.
  rewrite !(H OWNER_KEY), !(H STATUS_KEY), !(H BODY_KEY), !(H CATEGORY_KEY);
    unfold filterKeys; simpl; auto 6.
Qed.

Lemma constructFilter_first_values_witness :
  constructFilter
    (request "" [("limit", "3"); ("body", "sk"); ("owner", "Jerry");
                 ("owner", "Rod"); ("sortby", "body")] None)
  = constructFilter (request "" [("owner", "Jerry"); ("body", "sk")] None).
Proof.
  apply constructFilter_first_values.
  intros key [<- | [<- | [<- | [<- | []]]]]; reflexivity.
Defined.

(** *** The letter case of an identifier *)

Lemma hexDigitValue_lower (c : ascii) :
  hexDigitValue (Str.toLowerAscii c) = hexDigitValue c.
Proof.
  destruct c as [[] [] [] [] [] [] [] []]; vm_compute; reflexivity.
Qed.

Lemma toLowerCase_length (s : string) :
  String.length (Str.toLowerCase s) = String.length s.
Proof. induction s; simpl; congruence. Qed.

Lemma hexDigits_lower (s : string) :
  forallb (fun c => bool_decide (is_Some (hexDigitValue c)))
          (list_ascii_of_string (Str.toLowerCase s))
  = forallb (fun c => bool_decide (is_Some (hexDigitValue c)))
            (list_ascii_of_string s).
Proof.
  induction s as [|c s IH]; [reflexivity|].
  cbn [Str.toLowerCase list_ascii_of_string forallb].
  rewrite hexDigitValue_lower, IH. reflexivity.
Qed.

Lemma parseHexString_lower (s : string) (acc : N) :
  parseHexString (Str.toLowerCase s) acc = parseHexString s acc.
Proof.
  revert acc. induction s as [|c s IH]; intros acc; [reflexivity|].
  cbn [Str.toLowerCase parseHexString]. rewrite hexDigitValue_lower.
  destruct (hexDigitValue c); [apply IH | reflexivity].
Qed.

Lemma new_ObjectId_lower (id : string) :
  new_ObjectId (Str.toLowerCase id) = new_ObjectId id.
Proof.
  unfold new_ObjectId, ObjectId_isValid.
  rewrite toLowerCase_length, hexDigits_lower, parseHexString_lower.
  reflexivity.
Qed.

(** X17: the letter case of the hex digits of an identifier makes no
    difference to a lookup: getTodo ends the same way, with the same JSON
    and status, for an identifier and for its lower-case form. *)
Theorem getTodo_id_letter_case (id : string) (w : World) :
  let w1 := nextRequest (request id [] None) w in
  let w2 := nextRequest (request (Str.toLowerCase id) [] None) w in
  snd (getTodo w1) = snd (getTodo w2)
  /\ response_json (ctx (fst (getTodo w1))) = response_json (ctx (fst (getTodo w2)))
  /\ response_status (ctx (fst (getTodo w1)))
     = response_status (ctx (fst (getTodo w2))).
Proof.
  intros w1 w2. unfold w1, w2, nextRequest, request. run_handler.
  cbn [ctx pathParam_id todoCollection nextObjectId].
  rewrite new_ObjectId_lower.
  destruct (new_ObjectId id) as [[]|oid]; try (repeat split; reflexivity).
  destruct (head (find (Filters_eq "_id" (BsonObjectId oid)) (todoCollection w)));
    repeat split; reflexivity.
Qed.

Lemma getTodo_id_letter_case_example :
  exists w',
    getTodo (world (request "58909B5B0E0C68C320A1F581" [] None)) = (w', inr tt)
    /\ match response_json (ctx w') with
       | Some (JsonTodo t) =>
           owner t = Some "Fry" /\ _id t = Some "58909b5b0e0c68c320a1f581"
       | _ => False
       end.
Proof. eexists. split; [vm_compute; reflexivity|]. vm_compute. split; reflexivity. Qed.

End ServerMore.

(** ** The client: the list component, the service's request, the form *)
Module ClientMore.
Import StateExn Client ClientApp ClientSpec.
Local Open Scope monad_scope.

Section General.
Context {B : Builtins}.

#[local] Hint Resolve readOnly_ret readOnly_throw readOnly_getProp
  readOnly_toLowerCase readOnly_indexOf : readonly.
#[local] Hint Extern 2 (readOnly (bind _ _)) =>
  apply readOnly_bind; [|intros ?] : readonly.

(** *** updateFilter *)

Lemma filtersLiteral_no_name (this : TodoListComponent) :
  propOf (filtersLiteral this) "name" = VUndefined
  /\ propOf (filtersLiteral this) "company" = VUndefined.
Proof.
  unfold propOf, filtersLiteral.
  rewrite !lookup_insert_ne, !lookup_empty by discriminate. split; reflexivity.
Qed.

(** X9: updateFilter has no effect on what is shown: whatever the owner,
    status, body, category, limit and order controls hold, [filteredTodos]
    becomes the very array [serverFilteredTodos]; the only change to the
    heap is the object literal allocated for the call. *)
Theorem updateFilter_shows_server_list (this : TodoListComponent)
    (h : list cell) :
  exists this',
    updateFilter this h = ((h ++ [CObject (filtersLiteral this)])%list, inr this')
    /\ filteredTodos this' = Some (serverFilteredTodos this)
    /\ serverFilteredTodos this' = serverFilteredTodos this
    /\ (todoOwner this', todoStatus this', todoBody this',
        todoCategory this', todoLimit this', todoOrder this')
       = (todoOwner this, todoStatus this, todoBody this,
          todoCategory this, todoLimit this, todoOrder this).
Proof.
  destruct (filtersLiteral_no_name this) as [Hn Hc].
  assert (Hcall : filterTodos (serverFilteredTodos this) (length h)
                    (h ++ [CObject (filtersLiteral this)])%list
                  = ((h ++ [CObject (filtersLiteral this)])%list,
                     inr (serverFilteredTodos this))).
  { apply (filterTodos_ignores_other_keys _ _ _ (filtersLiteral this)).
    - apply list_lookup_middle. reflexivity.
    - rewrite Hn. reflexivity.
    - rewrite Hc. reflexivity. }
  eexists. split.
  - unfold updateFilter, bind at 1, alloc. unfold bind at 1.
    rewrite Hcall. reflexivity.
  - repeat split.
Qed.

(** *** The request of TodoService.getTodos *)

(** X10: the GET request goes to the given URL and carries at most the
    parameters role, age and company, each only when the filter has a
    truthy value for it (so an empty company is not sent, nor an age that
    is falsy), the age as the text its [toString()] gives; no other key of
    the filters (owner, status, body, category, ...) is ever sent. *)
Theorem getTodos_params (todoUrl : string) (filters : option (gmap string value)) :
  url (getTodos todoUrl filters) = todoUrl
  /\ (forall key, key <> roleKey -> key <> ageKey -> key <> companyKey ->
                 params (getTodos todoUrl filters) !! key = None)
  /\ (forall key sent,
        key = roleKey \/ key = ageKey \/ key = companyKey ->
        (params (getTodos todoUrl filters) !! key = Some sent <->
         exists f, filters = Some f /\ truthy (propOf f key) = true
                   /\ sent = if String.eqb key ageKey
                             then VString (ToString (propOf f key))
                             else propOf f key))
  /\ (forall f n, filters = Some f -> propOf f ageKey = VNumber n ->
        params (getTodos todoUrl filters) !! ageKey
        = if Number_truthy n then Some (VString (Number_toString n)) else None).
Proof.
  split; [reflexivity|]. split; [|split].
  - intros key Hr Ha Hc. unfold getTodos, HttpParams_set. simpl.
    destruct filters as [f|]; [|apply lookup_empty].
    destruct (truthy (propOf f "role")), (truthy (propOf f "age")),
      (truthy (propOf f "company"));
      rewrite ?lookup_insert_ne by congruence; apply lookup_empty.
  - intros key sent Hkey. unfold getTodos, HttpParams_set. simpl.
    destruct filters as [f|].
    2:{ rewrite lookup_empty. split; [discriminate | intros (f & [=] & _)]. }
    unfold roleKey, ageKey, companyKey in *.
    destruct Hkey as [-> | [-> | ->]]; simpl;
      destruct (truthy (propOf f "role")) eqn:Hr,
        (truthy (propOf f "age")) eqn:Ha,
        (truthy (propOf f "company")) eqn:Hc;
      rewrite ?lookup_insert_eq, ?lookup_insert_ne, ?lookup_insert_eq,
        ?lookup_insert_ne, ?lookup_insert_eq, ?lookup_empty by discriminate;
      (split;
       [ intros [= <-]; exists f; auto
       | intros (f' & [= <-] & Ht & ->); congruence ]).
  - intros f n -> Hage. unfold getTodos, HttpParams_set, ageKey, companyKey in *.
    simpl. rewrite Hage. simpl.
    destruct (truthy (propOf f "role")), (Number_truthy n),
      (truthy (propOf f "company"));
      rewrite ?lookup_insert_eq, ?lookup_insert_ne, ?lookup_insert_eq,
        ?lookup_insert_ne, ?lookup_insert_eq, ?lookup_empty by discriminate;
      reflexivity.
Qed.

(** *** The form *)

Lemma existsb_js_In (v : jsstring) (alternatives : list string) :
  existsb (fun a => bool_decide (v = js a)) alternatives = true
  <-> In v (map js alternatives).
Proof.
  rewrite existsb_exists, in_map_iff. split.
  - intros (x & Hx & Hv%bool_decide_eq_true). eauto.
  - intros (x & Hv & Hx). exists x. split; [exact Hx|].
    apply bool_decide_eq_true. congruence.
Qed.

(** X11: the message shown for the body control, by the [length] of the
    body (its number of UTF-16 code units).  An empty body gives "Body is
    required", a body of length one the minimum-length message, a body
    longer than 300 the maximum-length message; for every other body the
    answer is "Unknown error", also when the control is invalid because
    the body is a reserved name. *)
Theorem getErrorMessage_body (form : FormValue) :
  (form body = [] -> getErrorMessage form body = "Body is required")
  /\ (length (form body) = 1%nat ->
      getErrorMessage form body = "Body must be at least 2 characters long")
  /\ ((300 < length (form body))%nat ->
      getErrorMessage form body = "Body cannot be more than 300 characters long")
  /\ ((2 <= length (form body) <= 300)%nat ->
      getErrorMessage form body = "Unknown error").
Proof.
  unfold getErrorMessage. cbn [addTodoValidationMessages firstMessage].
  unfold hasError, errors, validators, body_errors,
    Validators_compose, Validators_required, Validators_minLength,
    Validators_maxLength, existingName.
  cbn [flat_map].
  destruct (form body) as [|c v] eqn:Hv.
  - repeat split; intros H; first [reflexivity | simpl in H; lia].
  - destruct (Nat.ltb_spec (length (c :: v)) 2) as [H2|H2];
      destruct (Nat.ltb_spec 300 (length (c :: v))) as [H3|H3];
      destruct ((bool_decide (toLowerCase (c :: v) = js "abc123")
                 || bool_decide (toLowerCase (c :: v) = js "123abc"))%bool);
      repeat split; intros H;
        first [ reflexivity | congruence | exfalso; lia
              | destruct v as [|? ?]; simpl in *; first [congruence | lia] ].
Qed.

(** X12: the form is valid exactly when the body has a [length] of 2 to
    300 and [toLowerCase] of it is neither abc123 nor 123abc, the status is
    the text complete or incomplete, the owner is not empty and the
    category is one of groceries, homework, software design and video
    games. *)
Theorem form_valid_iff (form : FormValue) :
  form_valid form = true <->
  ((2 <= length (form body) <= 300)%nat
   /\ toLowerCase (form body) <> js "abc123"
   /\ toLowerCase (form body) <> js "123abc")
  /\ In (form status) (map js ["complete"; "incomplete"])
  /\ form owner <> []
  /\ In (form category)
        (map js ["groceries"; "homework"; "software design"; "video games"]).
Proof.
  unfold form_valid, control_valid, errors, validators, body_errors,
    Validators_compose, Validators_required, Validators_minLength,
    Validators_maxLength, Validators_pattern, existingName.
  cbn [flat_map]. rewrite <- !existsb_js_In.
  destruct (form body) as [|cb vb] eqn:Hb.
  { simpl. split; [discriminate | intros ((H & _) & _); lia]. }
  destruct (form status) as [|cs vs] eqn:Hs.
  { rewrite !andb_false_r. simpl.
    split; [discriminate | intros (_ & H & _); discriminate]. }
  destruct (form owner) as [|co vo] eqn:Ho.
  { rewrite !andb_false_r. simpl.
    split; [discriminate | intros (_ & _ & H & _); congruence]. }
  destruct (form category) as [|cc vc] eqn:Hc.
  { rewrite !andb_false_r. simpl.
    split; [discriminate | intros (_ & _ & _ & H); discriminate]. }
  destruct (Nat.ltb_spec (length (cb :: vb)) 2) as [H2|H2];
    destruct (Nat.ltb_spec 300 (length (cb :: vb))) as [H3|H3];
    destruct (bool_decide_reflect (toLowerCase (cb :: vb) = js "abc123")) as [E1|E1];
    destruct (bool_decide_reflect (toLowerCase (cb :: vb) = js "123abc")) as [E2|E2];
    repeat match goal with
           | |- context [existsb ?f ?l] => destruct (existsb f l)
           end;
    cbn [app orb andb];
    (split; [ first [discriminate | intros _; repeat split; auto; lia]
            | intros ((Hlen & N1 & N2) & Hst & _ & Hcat);
              first [reflexivity | congruence | lia] ]).
Qed.

(** *** filterTodos on records that have the text it asks for *)

Lemma getProp_object (o : loc) (key : string) (h : list cell)
    (props : gmap string value) :
  h !! o = Some (CObject props) -> getProp o key h = (h, inr (propOf props key)).
Proof. intros H. unfold getProp. rewrite H. reflexivity. Qed.

Lemma filterElems_pure (callback : loc -> JS value) (elems : list loc)
    (h : list cell) (p : loc -> bool) :
  (forall l, In l elems -> callback l h = (h, inr (VBoolean (p l)))) ->
  filterElems callback elems h = (h, inr (List.filter p elems)).
Proof.
  induction elems as [|x rest IH]; intros Hcb; [reflexivity|].
  cbn [filterElems List.filter]. unfold bind at 1.
  rewrite (Hcb x) by (left; reflexivity). unfold bind at 1.
  rewrite IH by (intros; apply Hcb; right; assumption).
  simpl. destruct (p x); reflexivity.
Qed.

Lemma filterElems_throws (callback : loc -> JS value) (elems : list loc)
    (h : list cell) :
  (forall x, readOnly (callback x)) ->
  (exists l, In l elems /\ callback l h = (h, inl TypeError)) ->
  filterElems callback elems h = (h, inl TypeError).
Proof.
  intros Hro. induction elems as [|x rest IH]; intros (l & Hin & Hl); [destruct Hin|].
  cbn [filterElems]. unfold bind at 1.
  pose proof (Hro x h) as Hx.
  destruct (callback x h) as [h1 [[]|keep]] eqn:Hcb; simpl in Hx; subst h1;
    [reflexivity|].
  destruct Hin as [-> | Hin]; [congruence|].
  unfold bind at 1. rewrite IH by eauto. reflexivity.
Qed.

Lemma truthy_text (v : jsstring) : v <> [] -> truthy (VString v) = true.
Proof. destruct v; [congruence | reflexivity]. Qed.

(** The step for one key when the specification has a non-empty text for
    it and the array holds records that all have a text under the key. *)
Lemma filterBy_text (filters : loc) (key : string) (ft : loc) (h : list cell)
    (props : gmap string value) (v : jsstring) (elems : list loc) :
  h !! filters = Some (CObject props) ->
  props !! key = Some (VString v) -> v <> [] ->
  h !! ft = Some (CArray elems) ->
  Forall (hasText h key) elems ->
  ~ In filters elems ->
  filterBy filters key ft h
  = ((<[filters := CObject (<[key := VString (toLowerCase v)]> props)]> h
      ++ [CArray (List.filter (keeps h key (toLowerCase v)) elems)])%list,
     inr (length h)).
Proof.
  intros Hf Hk Hv Harr Htext Hnotin.
  pose proof (lookup_lt_Some _ _ _ Hf) as Hlt.
  assert (Hne : ft <> filters) by congruence.
  set (h2 := <[filters := CObject (<[key := VString (toLowerCase v)]> props)]> h).
  assert (Hf2 : h2 !! filters
                = Some (CObject (<[key := VString (toLowerCase v)]> props)))
    by (apply list_lookup_insert_eq; exact Hlt).
  assert (Hother : forall l, l <> filters -> h2 !! l = h !! l)
    by (intros l Hl; apply list_lookup_insert_ne; congruence).
  pose proof (truthy_text v Hv) as Htruthy.
  unfold filterBy. unfold bind at 1. rewrite (getProp_object _ _ _ _ Hf).
  unfold propOf at 1. rewrite Hk. cbn [default from_option id]. rewrite Htruthy.
  unfold bind at 1. rewrite (getProp_object _ _ _ _ Hf).
  unfold propOf at 1. rewrite Hk. cbn [default from_option id call_toLowerCase].
  unfold bind at 1. cbn [ret]. unfold bind at 1, setProp at 1. rewrite Hf.
  fold h2. unfold Array_filter, bind at 1, get.
  rewrite (Hother ft Hne), Harr. unfold bind at 1.
  rewrite (filterElems_pure _ elems h2 (keeps h key (toLowerCase v))).
  - unfold alloc. replace (length h2) with (length h)
      by (unfold h2; rewrite length_insert; reflexivity).
    reflexivity.
  - intros l Hl.
    assert (Hlf : l <> filters) by (intros ->; exact (Hnotin Hl)).
    rewrite Forall_forall in Htext.
    destruct (Htext l ltac:(apply list_elem_of_In; exact Hl))
      as (lprops & s & Hlo & Hls).
    unfold bind at 1. rewrite (getProp_object l key h2 lprops)
      by (rewrite Hother by exact Hlf; exact Hlo).
    unfold propOf at 1. rewrite Hls. cbn [default from_option id call_toLowerCase].
    unfold bind at 1. cbn [ret]. unfold bind at 1.
    rewrite (getProp_object _ _ _ _ Hf2).
    unfold propOf at 1. rewrite lookup_insert_eq. cbn [default from_option id call_indexOf].
    unfold bind at 1. cbn [ret ToString].
    unfold keeps. rewrite Hlo, Hls. reflexivity.
Qed.

Lemma filterBy_falsy (filters : loc) (key : string) (ft : loc) (h : list cell)
    (props : gmap string value) :
  h !! filters = Some (CObject props) ->
  truthy (propOf props key) = false ->
  filterBy filters key ft h = (h, inr ft).
Proof.
  intros Hf Hv. unfold filterBy, bind. rewrite (getProp_object _ _ _ _ Hf), Hv.
  reflexivity.
Qed.

Lemma keeps_containsText (h : list cell) (key : string) (v : jsstring) (l : loc) :
  keeps h key (toLowerCase v) l = true <-> containsText h key v l.
Proof.
  unfold keeps, containsText. split.
  - destruct (h !! l) as [[props|]|]; try discriminate.
    destruct (props !! key) as [[|s| |]|] eqn:Hs; try discriminate.
    intros H%JsFacts.js_indexOf_found. eauto.
  - intros (props & s & -> & -> & H). apply JsFacts.js_indexOf_found, H.
Qed.

Lemma hasTextb_spec (h : list cell) (key : string) (l : loc) :
  hasTextb h key l = true <-> hasText h key l.
Proof.
  unfold hasTextb, hasText. split.
  - destruct (h !! l) as [[props|]|]; try discriminate.
    destruct (props !! key) as [[|s| |]|] eqn:Hs; try discriminate.
    intros _. exists props, s. split; [reflexivity | exact Hs].
  - intros (props & s & -> & ->). reflexivity.
Qed.

Lemma Forall_hasText (h : list cell) (key : string) (elems : list loc) :
  forallb (hasTextb h key) elems = true -> Forall (hasText h key) elems.
Proof.
  rewrite forallb_forall, Forall_forall. intros H l Hl.
  apply hasTextb_spec, H, list_elem_of_In, Hl.
Qed.

Lemma hasText_lt (h : list cell) (key : string) (l : loc) :
  hasText h key l -> (l < length h)%nat.
Proof. intros (props & s & H & _). exact (lookup_lt_Some _ _ _ H). Qed.

(** X13: one text filter.  When the specification has a non-empty text
    under one of the keys name and company and nothing truthy under the
    other, every record of the array has a text under that key, and the
    specification is not itself one of the records, filterTodos returns a
    new array holding, in their order, exactly the records for which
    [toLowerCase] of the filter text occurs in [toLowerCase] of the
    record's text; the input array is as before. *)
Theorem filterTodos_one_key (h : list cell) (todos filters : loc)
    (props : gmap string value) (key other : string) (text : jsstring)
    (elems : list loc) :
  (key = "name" /\ other = "company") \/ (key = "company" /\ other = "name") ->
  h !! filters = Some (CObject props) ->
  props !! key = Some (VString text) -> text <> [] ->
  truthy (propOf props other) = false ->
  h !! todos = Some (CArray elems) ->
  Forall (hasText h key) elems ->
  ~ In filters elems ->
  exists h' kept,
    filterTodos todos filters h = (h', inr (length h))
    /\ h' !! length h = Some (CArray kept)
    /\ kept = List.filter (keeps h key (toLowerCase text)) elems
    /\ (forall l, In l kept <-> In l elems /\ containsText h key text l)
    /\ h' !! todos = Some (CArray elems).
Proof.
  intros Hkeys Hf Hk Htext Hother Harr Hall Hnotin.
  pose proof (lookup_lt_Some _ _ _ Hf) as Hlt.
  pose proof (lookup_lt_Some _ _ _ Harr) as Hlt'.
  assert (Hne : todos <> filters) by congruence.
  eexists. eexists. split; [|split; [|split; [reflexivity|split]]].
  - rewrite filterTodos_steps. unfold bind at 1.
    destruct Hkeys as [[-> ->] | [-> ->]].
    + rewrite (filterBy_text _ _ _ _ _ _ _ Hf Hk Htext Harr Hall Hnotin).
      unfold bind at 1.
      rewrite (filterBy_falsy _ "company" _ _
                 (<["name" := VString (toLowerCase text)]> props)).
      * reflexivity.
      * rewrite lookup_app_l by (rewrite length_insert; exact Hlt).
        apply list_lookup_insert_eq, Hlt.
      * unfold propOf in *. rewrite lookup_insert_ne by discriminate. exact Hother.
    + rewrite (filterBy_falsy _ "name" _ _ _ Hf Hother). unfold bind at 1.
      rewrite (filterBy_text _ _ _ _ _ _ _ Hf Hk Htext Harr Hall Hnotin).
      reflexivity.
  - apply list_lookup_middle. rewrite length_insert. reflexivity.
  - intros l. rewrite filter_In, keeps_containsText. reflexivity.
  - rewrite lookup_app_l by (rewrite length_insert; exact Hlt').
    rewrite list_lookup_insert_ne by congruence. exact Harr.
Qed.

(** X14: two text filters.  When the specification has a non-empty text
    under both name and company, every record of the array has a name,
    every record whose name passes has a company, and the specification is
    not itself one of the records, filterTodos returns a new array
    holding, in their order, exactly the records that pass both: for each
    of the two keys, [toLowerCase] of the filter text occurs in
    [toLowerCase] of the record's text. *)
Theorem filterTodos_both_keys (h : list cell) (todos filters : loc)
    (props : gmap string value) (name company : jsstring) (elems : list loc) :
  h !! filters = Some (CObject props) ->
  props !! "name" = Some (VString name) -> name <> [] ->
  props !! "company" = Some (VString company) -> company <> [] ->
  h !! todos = Some (CArray elems) ->
  Forall (hasText h "name") elems ->
  Forall (hasText h "company")
         (List.filter (keeps h "name" (toLowerCase name)) elems) ->
  ~ In filters elems ->
  exists h' kept,
    filterTodos todos filters h = (h', inr (S (length h)))
    /\ h' !! S (length h) = Some (CArray kept)
    /\ kept = List.filter (keeps h "company" (toLowerCase company))
                (List.filter (keeps h "name" (toLowerCase name)) elems)
    /\ (forall l, In l kept <->
                  In l elems /\ containsText h "name" name l
                  /\ containsText h "company" company l)
    /\ h' !! todos = Some (CArray elems).
Proof.
  intros Hf Hn Hnne Hc Hcne Harr Hname Hcompany Hnotin.
  pose proof (lookup_lt_Some _ _ _ Hf) as Hlt.
  pose proof (lookup_lt_Some _ _ _ Harr) as Hlt'.
  assert (Hne : todos <> filters) by congruence.
  set (props1 := <["name" := VString (toLowerCase name)]> props).
  set (kept1 := List.filter (keeps h "name" (toLowerCase name)) elems) in *.
  set (h1 := (<[filters := CObject props1]> h ++ [CArray kept1])%list).
  assert (Hlen1 : length h1 = S (length h)).
  { unfold h1. rewrite length_app, length_insert. simpl. lia. }
  assert (Hold : forall l, l <> filters -> (l < length h)%nat -> h1 !! l = h !! l).
  { intros l Hl Hll. unfold h1. rewrite lookup_app_l by (rewrite length_insert; lia).
    apply list_lookup_insert_ne. congruence. }
  assert (Hf1 : h1 !! filters = Some (CObject props1)).
  { unfold h1. rewrite lookup_app_l by (rewrite length_insert; lia).
    apply list_lookup_insert_eq, Hlt. }
  assert (Hsub : forall l, In l kept1 -> In l elems /\ l <> filters).
  { intros l Hl. apply filter_In in Hl as [Hl _]. split; [exact Hl|].
    intros ->. exact (Hnotin Hl). }
  assert (Hsame : forall l, In l kept1 ->
            keeps h1 "company" (toLowerCase company) l
            = keeps h "company" (toLowerCase company) l).
  { intros l Hl. destruct (Hsub l Hl) as [_ Hlf].
    rewrite Forall_forall in Hcompany.
    pose proof (hasText_lt _ _ _ (Hcompany l ltac:(apply list_elem_of_In; exact Hl))).
    unfold keeps. rewrite Hold by assumption. reflexivity. }
  assert (Hstep2 :
    filterBy filters "company" (length h) h1
    = ((<[filters := CObject (<["company" := VString (toLowerCase company)]> props1)]> h1
        ++ [CArray (List.filter (keeps h1 "company" (toLowerCase company)) kept1)])%list,
       inr (length h1))).
  { apply filterBy_text; try assumption.
    - unfold props1. rewrite lookup_insert_ne by discriminate. exact Hc.
    - unfold h1. apply list_lookup_middle. rewrite length_insert. reflexivity.
    - rewrite Forall_forall in Hcompany |- *. intros l Hl.
      destruct (Hcompany l Hl) as (lp & s & Hlo & Hls).
      exists lp, s. split; [|exact Hls].
      rewrite Hold; [exact Hlo | | exact (lookup_lt_Some _ _ _ Hlo)].
      apply list_elem_of_In in Hl. apply (Hsub l Hl).
    - intros Hin. apply (Hsub _ Hin). reflexivity. }
  rewrite (filter_ext_in _ _ _ Hsame) in Hstep2.
  eexists. eexists. split; [|split; [|split; [reflexivity|split]]].
  - rewrite filterTodos_steps. unfold bind at 1.
    rewrite (filterBy_text _ _ _ _ _ _ _ Hf Hn Hnne Harr Hname Hnotin).
    fold props1 kept1 h1. unfold bind at 1. rewrite Hstep2, Hlen1. reflexivity.
  - apply list_lookup_middle. rewrite length_insert. symmetry. exact Hlen1.
  - intros l. unfold kept1. rewrite !filter_In, !keeps_containsText. tauto.
  - rewrite lookup_app_l by (rewrite length_insert; lia).
    rewrite list_lookup_insert_ne by congruence.
    rewrite Hold; [exact Harr | exact Hne | exact Hlt'].
Qed.

(** *** filterTodos on records that lack the text *)

(** X15: a name filter over an array in which some record has no text
    under name (as the todos of todo.ts have none) ends in a TypeError; by
    then the name of the specification has already been overwritten with
    its lower-case form, and nothing else in the heap has changed. *)
Theorem filterTodos_record_without_name (h : list cell) (todos filters : loc)
    (props : gmap string value) (name : jsstring) (elems : list loc) (l : loc) :
  h !! filters = Some (CObject props) ->
  props !! "name" = Some (VString name) -> name <> [] ->
  h !! todos = Some (CArray elems) ->
  In l elems -> l <> filters -> ~ hasText h "name" l ->
  filterTodos todos filters h
  = (<[filters := CObject (<["name" := VString (toLowerCase name)]> props)]> h,
     inl TypeError).
Proof.
  intros Hf Hk Hv Harr Hin Hlf Hbad.
  pose proof (lookup_lt_Some _ _ _ Hf) as Hlt.
  assert (Hne : todos <> filters) by congruence.
  set (h2 := <[filters := CObject (<["name" := VString (toLowerCase name)]> props)]> h).
  assert (Hother : forall x, x <> filters -> h2 !! x = h !! x)
    by (intros x Hx; apply list_lookup_insert_ne; congruence).
  pose proof (truthy_text name Hv) as Htruthy.
  rewrite filterTodos_steps. unfold bind at 1.
  assert (Hstep : filterBy filters "name" todos h = (h2, inl TypeError)).
  { unfold filterBy. unfold bind at 1. rewrite (getProp_object _ _ _ _ Hf).
    unfold propOf at 1. rewrite Hk. cbn [default from_option id]. rewrite Htruthy.
    unfold bind at 1. rewrite (getProp_object _ _ _ _ Hf).
    unfold propOf at 1. rewrite Hk. cbn [default from_option id call_toLowerCase].
    unfold bind at 1. cbn [ret]. unfold bind at 1, setProp at 1. rewrite Hf.
    fold h2. unfold Array_filter, bind at 1, get.
    rewrite (Hother todos Hne), Harr. unfold bind at 1.
    rewrite filterElems_throws; [reflexivity | |].
    - intros x. auto 10 with readonly.
    - exists l. split; [exact Hin|].
      unfold bind at 1, getProp at 1. rewrite (Hother l Hlf).
      destruct (h !! l) as [[lprops|arr]|] eqn:Hl; try reflexivity.
      destruct (lprops !! "name") as [[|s| |]|] eqn:Hs; try reflexivity.
      exfalso. apply Hbad. exists lprops, s. split; [exact Hl | exact Hs]. }
  rewrite Hstep. reflexivity.
Qed.

(** *** The messages of the other controls *)

(** X16: for every control of the form, an empty value is answered with
    the control's "required" message and a valid value with "Unknown
    error"; a status other than complete and incomplete, though invalid,
    is answered with "Unknown error" as well, since no message is listed
    for its pattern. *)
Theorem getErrorMessage_controls (form : FormValue) (name : Control) :
  (form name = [] ->
   exists message,
     head (addTodoValidationMessages name) = Some ("required", message)
     /\ getErrorMessage form name = message)
  /\ (control_valid form name = true ->
      getErrorMessage form name = "Unknown error")
  /\ (form status <> [] ->
      getErrorMessage form status = "Unknown error").
Proof.
  split; [|split].
  - intros Hempty. unfold getErrorMessage, hasError, errors.
    destruct name; eexists; (split; [reflexivity|]);
      cbn [addTodoValidationMessages firstMessage]; unfold hasError, errors;
      rewrite Hempty; reflexivity.
  - unfold control_valid, getErrorMessage. intros Hvalid.
    assert (Hnone : forall type, hasError form name type = false).
    { intros type. unfold hasError.
      destruct (errors form name); [reflexivity | discriminate]. }
    destruct name; cbn [addTodoValidationMessages firstMessage];
      rewrite ?Hnone; reflexivity.
  - intros Hs. unfold getErrorMessage.
    cbn [addTodoValidationMessages firstMessage].
    unfold hasError, errors, validators,
      Validators_compose, Validators_required, Validators_pattern.
    cbn [flat_map].
    destruct (form status) as [|c v]; [congruence|].
    match goal with
    | |- context [existsb ?f ["complete"; "incomplete"]] =>
        destruct (existsb f ["complete"; "incomplete"])
    end; reflexivity.
Qed.

End General.

(** *** On the sample records and on sample forms *)

#[local] Existing Instance exampleBuiltins.

Lemma getTodos_params_witness :
  let filters := <["age" := VNumber 0]> (<["company" := VString (js "UMM")]>
                 (<["category" := VString (js "homework")]> ∅)) in
  let older := <["age" := VNumber 25]> filters in
  params (getTodos "/api/todos" (Some filters)) !! "category" = None
  /\ params (getTodos "/api/todos" (Some filters)) !! "company"
     = Some (VString (js "UMM"))
  /\ params (getTodos "/api/todos" (Some filters)) !! "age" = None
  /\ params (getTodos "/api/todos" (Some older)) !! "age"
     = Some (VString (js "25")).
Proof.
  intros filters older.
  destruct (getTodos_params "/api/todos" (Some filters))
    as (_ & Hother & Hsent & Hage).
  destruct (getTodos_params "/api/todos" (Some older)) as (_ & _ & _ & Hage').
  split; [apply Hother; discriminate|]. split; [|split].
  - apply Hsent; [right; right; reflexivity|].
    exists filters. split; [reflexivity|]. split; vm_compute; reflexivity.
  - exact (Hage filters 0 eq_refl eq_refl).
  - exact (Hage' older 25 eq_refl eq_refl).
Defined.

Lemma form_valid_iff_witness :
  form_valid (fun name => match name with
                          | body => js "Buy milk"
                          | status => js "complete"
                          | owner => js "Fry"
                          | category => js "groceries"
                          end) = true
  /\ form_valid (fun name => match name with
                             | body => [8364%N]
                             | status => js "complete"
                             | owner => js "Fry"
                             | category => js "groceries"
                             end) = false.
Proof.
  split.
  - apply form_valid_iff. cbn [length js map list_ascii_of_string].
    repeat split; try lia; try discriminate.
    + left. reflexivity.
    + left. reflexivity.
  - match goal with |- ?v = false => destruct v eqn:E end; [|reflexivity].
    apply form_valid_iff in E. destruct E as ((Hlen & _) & _).
    simpl in Hlen. lia.
Defined.

Lemma getErrorMessage_body_witness :
  getErrorMessage (fun _ => []) body = "Body is required"
  /\ getErrorMessage (fun _ => js "x") body
     = "Body must be at least 2 characters long"
  /\ getErrorMessage (fun _ => [8364%N]) body
     = "Body must be at least 2 characters long"
  /\ getErrorMessage (fun _ => js "abc123") body = "Unknown error"
  /\ control_valid (fun _ => js "abc123") body = false.
Proof.
  destruct (getErrorMessage_body (fun _ => [])) as (H1 & _).
  destruct (getErrorMessage_body (fun _ => js "x")) as (_ & H2 & _).
  destruct (getErrorMessage_body (fun _ => [8364%N])) as (_ & H3 & _).
  destruct (getErrorMessage_body (fun _ => js "abc123")) as (_ & _ & _ & H4).
  split; [apply H1; reflexivity|]. split; [apply H2; reflexivity|].
  split; [apply H3; reflexivity|].
  split; [apply H4; simpl; lia | reflexivity].
Defined.

Lemma filterTodos_one_key_witness :
  let h := (namedTodos_heap ++ [CObject (<["name" := VString (js "CH")]> ∅)])%list in
  exists h',
    filterTodos namedTodos 3%nat h = (h', inr 4%nat)
    /\ h' !! 4%nat = Some (CArray [0%nat])
    /\ h' !! namedTodos = Some (CArray [0%nat; 1%nat]).
Proof.
  intros h.
  destruct (filterTodos_one_key h namedTodos 3%nat
              (<["name" := VString (js "CH")]> ∅)
              "name" "company" (js "CH") [0%nat; 1%nat])
    as (h' & kept & Hrun & Hkept & -> & _ & Hin);
    try reflexivity; try discriminate.
  - left. split; reflexivity.
  - apply Forall_hasText. vm_compute. reflexivity.
  - simpl. lia.
  - exists h'. split; [exact Hrun|]. split; [|exact Hin].
    vm_compute in Hkept. vm_compute. exact Hkept.
Defined.

Lemma filterTodos_both_keys_witness :
  let spec := <["name" := VString (js "a")]>
                (<["company" := VString (js "ibm")]> ∅) in
  let h := (namedTodos_heap ++ [CObject spec])%list in
  exists h',
    filterTodos namedTodos 3%nat h = (h', inr 5%nat)
    /\ h' !! 5%nat = Some (CArray [1%nat]).
Proof.
  intros spec h.
  destruct (filterTodos_both_keys h namedTodos 3%nat spec (js "a") (js "ibm")
              [0%nat; 1%nat])
    as (h' & kept & Hrun & Hkept & -> & _);
    try reflexivity; try discriminate.
  - apply Forall_hasText. vm_compute. reflexivity.
  - apply Forall_hasText. vm_compute. reflexivity.
  - simpl. lia.
  - exists h'. split; [exact Hrun|].
    vm_compute in Hkept. vm_compute. exact Hkept.
Defined.

Lemma filterTodos_record_without_name_witness :
  let h := (testTodos_heap ++ [CObject (<["name" := VString (js "I")]> ∅)])%list in
  filterTodos testTodos 4%nat h
  = ((testTodos_heap ++ [CObject (<["name" := VString (js "i")]> ∅)])%list,
     inl TypeError).
Proof.
  intros h.
  assert (Hbad : ~ hasText h "name" 0%nat).
  { intros Hhas%hasTextb_spec. vm_compute in Hhas. discriminate. }
  rewrite (filterTodos_record_without_name h testTodos 4%nat
             (<["name" := VString (js "I")]> ∅) (js "I")
             [0%nat; 1%nat; 2%nat] 0%nat
             eq_refl eq_refl ltac:(discriminate) eq_refl
             (or_introl eq_refl) ltac:(discriminate) Hbad).
  reflexivity.
Defined.

Lemma getErrorMessage_controls_witness :
  getErrorMessage (fun _ => []) category = "Category is required"
  /\ getErrorMessage (fun _ => js "homework") category = "Unknown error"
  /\ getErrorMessage (fun _ => js "done") status = "Unknown error"
  /\ control_valid (fun _ => js "done") status = false.
Proof.
  destruct (getErrorMessage_controls (fun _ => []) category) as (H1 & _).
  destruct (getErrorMessage_controls (fun _ => js "homework") category)
    as (_ & H2 & _).
  destruct (getErrorMessage_controls (fun _ => js "done") status) as (_ & _ & H3).
  split; [|split; [apply H2; reflexivity | split; [apply H3; discriminate | reflexivity]]].
  destruct (H1 eq_refl) as (message & Hhead & Hmsg).
  injection Hhead as <-. exact Hmsg.
Defined.

End ClientMore.
